(** * newsbot63: the feed aggregation pipeline of [telegram_news_bot.js]

    A shallow embedding of [httpsRequest], [fetchRSSFeeds],
    [processWithAI], [sendToTelegram] and [main].  JavaScript values are
    an inductive type; the outcome of a computation is a value, an
    exception, or none when an awaited promise never settles; and
    everything the program takes from its environment (the network, the
    XML and JSON parsers, the wall clock, the [Date] constructor and the
    choices of the engine's sort) is a field of one record [Env].
    Console output is not modelled.  A character of a [string] stands for one UTF-16 code
    unit of a JavaScript string. *)

From Stdlib Require Import List String Ascii ZArith QArith Bool Lia.
From Stdlib Require Import Permutation Sorted DecimalString.
Import ListNotations.

#[local] Open Scope list_scope.
#[local] Open Scope Z_scope.
#[local] Open Scope string_scope.

(* ------------------------------------------------------------------ *)
(** ** Exceptions *)

(** A thrown value: a runtime [TypeError], or an [Error] built with
    [new Error(message)] (also used for the errors that the transport
    and the parser raise). *)
Inductive Exn : Type :=
| TypeError (what : string)
| Error (message : string).

(** The outcome of evaluating an expression: a value, an exception,
    or no outcome at all because an awaited promise never settles.  For
    an [async] function it is the state of its promise: fulfilled,
    rejected, or pending for ever. *)
Inductive Result (A : Type) : Type :=
| Ok (a : A)
| Throw (e : Exn)
| Never.

Arguments Ok {A} a.
Arguments Throw {A} e.
Arguments Never {A}.

Definition bind {A B : Type} (c : Result A) (k : A -> Result B) : Result B :=
  match c with
  | Ok a => k a
  | Throw e => Throw e
  | Never => Never
  end.

Notation "x <- c ;; k" := (bind c (fun x => k))
  (at level 61, c at next level, right associativity).

(** [try { body } catch (error) { handler }] *)
Definition try_catch {A : Type} (body : Result A) (handler : Exn -> Result A)
  : Result A :=
  match body with
  | Ok a => Ok a
  | Throw e => handler e
  | Never => Never
  end.

Definition throws {A : Type} (c : Result A) : Prop := exists e, c = Throw e.

(* ------------------------------------------------------------------ *)
(** ** Values *)

(** A JavaScript number: a finite one is kept as an exact rational. *)
Inductive JsNum : Type :=
| NaN
| Infinity (negative : bool)
| Finite (q : Q).

Set Warnings "-register-all".

(** The data that a parser builds: [XMLParser.parse] gives strings,
    numbers, booleans, arrays and plain objects whose properties are
    again such data (an attribute [a] is the property ["@_a"], mixed
    text is the property ["#text"]).  Property names of an object are
    distinct; the list keeps their order. *)
Inductive Data : Type :=
| DNull
| DBool (b : bool)
| DNum (n : JsNum)
| DStr (s : string)
| DArr (elems : list Data)
| DObj (props : list (string * Data)).

(** A value as the program sees it: [undefined], data, or a function
    found on a built-in prototype (such as [String.prototype.link]). *)
Inductive JsVal : Type :=
| Undefined
| Val (d : Data)
| Builtin (name : string).

Definition str (s : string) : JsVal := Val (DStr s).

Definition is_string (v : JsVal) : bool :=
  match v with
  | Val (DStr _) => true
  | _ => false
  end.

(** [v !== undefined && v !== null] *)
Definition defined (v : JsVal) : bool :=
  match v with
  | Undefined | Val DNull => false
  | _ => true
  end.

(** [ToBoolean] *)
Definition truthy (v : JsVal) : bool :=
  match v with
  | Undefined => false
  | Val DNull => false
  | Val (DBool b) => b
  | Val (DNum NaN) => false
  | Val (DNum (Infinity _)) => true
  | Val (DNum (Finite q)) => negb (Z.eqb (Qnum q) 0)
  | Val (DStr s) => negb (s =? "")
  | Val (DArr _) => true
  | Val (DObj _) => true
  | Builtin _ => true
  end.

Fixpoint own (k : string) (props : list (string * Data)) : option Data :=
  match props with
  | [] => None
  | (k', d) :: rest => if k =? k' then Some d else own k rest
  end.

(** The methods of [String.prototype] among the property names that
    the program reads. *)
Definition String_prototype (k : string) : JsVal :=
  if (k =? "link") || (k =? "replace") || (k =? "substring")
  then Builtin k else Undefined.

(** Property read [v.k] (or [v[k]]), for the property names that the
    program reads: rss, channel, item, feed, entry, title, #text, link,
    @_href, pubDate, published, description, summary, dc:creator,
    author, name, replace, substring, choices, 0, message, content.
    None of them is inherited from [Object.prototype],
    [Array.prototype], [Number.prototype] or [Boolean.prototype]; a
    string inherits [link], [replace] and [substring]; a function has a
    [name]; [0] is the first element of an array and the first
    character of a string. *)
Definition get (v : JsVal) (k : string) : Result JsVal :=
  match v with
  | Undefined => Throw (TypeError ("Cannot read properties of undefined (reading '" ++ k ++ "')"))
  | Val DNull => Throw (TypeError ("Cannot read properties of null (reading '" ++ k ++ "')"))
  | Val (DObj props) =>
      Ok (match own k props with Some d => Val d | None => Undefined end)
  | Val (DStr s) =>
      Ok (if k =? "0"
          then match s with
               | String c _ => str (String c EmptyString)
               | EmptyString => Undefined
               end
          else String_prototype k)
  | Val (DArr elems) =>
      Ok (if k =? "0"
          then match elems with
               | d :: _ => Val d
               | [] => Undefined
               end
          else Undefined)
  | Val (DBool _) | Val (DNum _) => Ok Undefined
  | Builtin f => Ok (if k =? "name" then str f else Undefined)
  end.

(** Optional chaining [v?.k] *)
Definition opt_get (v : JsVal) (k : string) : Result JsVal :=
  if defined v then get v k else Ok Undefined.

(** [a || b]: [b] is evaluated only when [a] is falsy. *)
Definition or_else (a b : Result JsVal) : Result JsVal :=
  x <- a ;; if truthy x then Ok x else b.

Notation "a ||| b" := (or_else a b) (at level 50, left associativity).

(* ------------------------------------------------------------------ *)
(** ** Strings *)

Definition is_lt (c : ascii) : bool := Ascii.eqb c "<"%char.
Definition is_gt (c : ascii) : bool := Ascii.eqb c ">"%char.

Fixpoint has_gt (s : string) : bool :=
  match s with
  | EmptyString => false
  | String c r => is_gt c || has_gt r
  end.

(** [s.replace(/<[^>]*>/g, '')].  Scanning from the left, a match
    starts at a ["<"] that has a [">"] somewhere after it and runs to
    the first such [">"]; the next match is searched after it.
    [strip_tags] scans outside a match, [strip_inside] inside one. *)
Fixpoint strip_tags (s : string) : string :=
  match s with
  | EmptyString => EmptyString
  | String c r =>
      if is_lt c && has_gt r then strip_inside r
      else String c (strip_tags r)
  end
with strip_inside (s : string) : string :=
  match s with
  | EmptyString => EmptyString
  | String c r => if is_gt c then strip_tags r else strip_inside r
  end.

(** [s.substring(0, n)] for a non-negative integer [n] *)
Definition substring_to (n : nat) (s : string) : string :=
  String.substring 0 n s.

(** The method call [x.replace(/<[^>]*>/g, '')] *)
Definition call_replace_tags (x : JsVal) : Result JsVal :=
  f <- get x "replace" ;;
  match f, x with
  | Builtin _, Val (DStr s) => Ok (str (strip_tags s))
  | _, _ => Throw (TypeError "replace is not a function")
  end.

(** The method call [x.substring(0, n)] *)
Definition call_substring_to (n : nat) (x : JsVal) : Result JsVal :=
  f <- get x "substring" ;;
  match f, x with
  | Builtin _, Val (DStr s) => Ok (str (substring_to n s))
  | _, _ => Throw (TypeError "substring is not a function")
  end.

(** No ["<"] of [s] has a [">"] after it. *)
Fixpoint tag_free (s : string) : bool :=
  match s with
  | EmptyString => true
  | String c r => (if is_lt c then negb (has_gt r) else true) && tag_free r
  end.



(* ------------------------------------------------------------------ *)
(** ** The canonical record and the normalizer *)

Record NewsItem : Type := {
  title : JsVal;
  link : JsVal;
  pubDate : JsVal;
  content : JsVal;
  contentSnippet : JsVal;
  creator : JsVal
}.

(** The callback of [items.map] in [fetchRSSFeeds]; [now] is what
    [new Date().toISOString()] answers if it is evaluated. *)
Definition normalize_item (now : string) (item : JsVal) : Result NewsItem :=
  title <- (get item "title"
            ||| (t <- get item "title" ;; opt_get t "#text")
            ||| Ok (str "No title")) ;;
  link <- (get item "link"
           ||| (l <- get item "link" ;; opt_get l "@_href")
           ||| Ok (str "")) ;;
  pubDate <- (get item "pubDate" ||| get item "published" ||| Ok (str now)) ;;
  content <- (get item "description" ||| get item "summary" ||| Ok (str "")) ;;
  contentSnippet <-
    (x <- (get item "description" ||| get item "summary" ||| Ok (str "")) ;;
     y <- call_replace_tags x ;;
     call_substring_to 120 y) ;;
  creator <- (get item "dc:creator"
              ||| (a <- get item "author" ;; opt_get a "name")
              ||| Ok (str "Unknown")) ;;
  Ok {| title := title; link := link; pubDate := pubDate; content := content;
        contentSnippet := contentSnippet; creator := creator |}.

(** The value that [content] and [contentSnippet] start from. *)
Definition content_source (item : JsVal) : Result JsVal :=
  get item "description" ||| get item "summary" ||| Ok (str "").

(** [r] does not evaluate to a truthy value that is not a string. *)
Definition textual (r : Result JsVal) : Prop :=
  forall v, r = Ok v -> truthy v = true -> is_string v = true.

(** [items.map(item => ...)]: the callback runs on the elements in
    order, the first exception ends the map.  [now i] is the clock
    reading available to the element at index [i]. *)
Fixpoint normalizedItems_from (now : nat -> string) (i : nat) (items : list JsVal)
  : Result (list NewsItem) :=
  match items with
  | [] => Ok []
  | item :: rest =>
      n <- normalize_item (now i) item ;;
      ns <- normalizedItems_from now (S i) rest ;;
      Ok (n :: ns)
  end.

Definition normalizedItems (now : nat -> string) (items : list JsVal)
  : Result (list NewsItem) :=
  normalizedItems_from now 0 items.

(* ------------------------------------------------------------------ *)
(** ** The environment *)

(** The second argument of [https.request]. *)
Record Options : Type := {
  method : string;
  headers : list (string * string);
  body : option string
}.

(** [options = {}]: a GET request without headers and body *)
Definition default_options : Options :=
  {| method := "GET"; headers := []; body := None |}.

(** What one [https.request] leads to: the request emits ['error'];
    or the response arrives with its status code, emits ['data'] for
    each chunk and then ['end']; or the response arrives and the
    connection is cut before ['end'], in which case neither ['end'] nor
    an ['error'] of the request is emitted. *)
Inductive Exchange : Type :=
| Failed (error : Exn)
| Responded (statusCode : Z) (chunks : list string)
| Aborted (statusCode : Z) (chunks : list string).

Inductive Call : Type :=
| Call_processWithAI (newsData : list NewsItem)
| Call_sendToTelegram (message : JsVal).

Record Env : Type := {
  (** the network: the exchange that a request to [url] leads to *)
  https_request : string -> Options -> Exchange;
  (** [parser.parse(xmlData)]: the root object, or the parser's error *)
  XMLParser_parse : string -> Result (list (string * Data));
  (** [new Date().toISOString()], the wall clock, when the element [i]
      of a feed is normalized; the first argument lists the feeds whose
      processing has begun, the current one first, so that the reading
      depends on what was processed before *)
  now_ISO : list string -> nat -> string;
  (** [new Date(v)]: the time value in milliseconds, [None] for an
      invalid date (how a string outside the ISO format is read is up to
      the JavaScript engine), or the exception of the conversion of [v]
      to a primitive *)
  Date_new : JsVal -> Result (option Z);
  (** the arrangement, as a list of indices, in which the sort of the
      engine leaves an array when the comparator is not consistent *)
  sort_order : list NewsItem -> list nat;
  (** [JSON.parse(text)] *)
  JSON_parse : string -> Result Data;
  (** the request body of [processWithAI]: [JSON.stringify] of the
      chat-completion request whose prompt holds
      [JSON.stringify(newsData)] and today's date *)
  completion_request : list NewsItem -> string;
  (** the request body of [sendToTelegram]: [JSON.stringify] of the
      chat id, the message and the parse mode *)
  sendMessage_request : JsVal -> string;
  (** [Buffer.byteLength(body)] *)
  byteLength : string -> Z;
  (** [CONFIG.openaiKey] and [CONFIG.telegramBot] as they print in a
      template literal *)
  openaiKey : string;
  telegramBot : string
}.

(* ------------------------------------------------------------------ *)
(** ** [httpsRequest] *)

Definition string_of_Z (z : Z) : string := NilZero.string_of_int (Z.to_int z).

(** The promise of [httpsRequest] after the exchange [x]: [data] is
    the concatenation of the chunks in arrival order; without ['end']
    and without ['error'] neither [resolve] nor [reject] is called. *)
Definition settle (x : Exchange) : Result string :=
  match x with
  | Failed e => Throw e
  | Responded statusCode chunks =>
      let data := fold_left append chunks "" in
      if ((200 <=? statusCode) && (statusCode <? 300))%Z
      then Ok data
      else Throw (Error ("HTTP " ++ string_of_Z statusCode ++ ": " ++ data))
  | Aborted _ _ => Never
  end.

Definition httpsRequest (E : Env) (url : string) (options : Options)
  : Result string :=
  settle (https_request E url options).

(* ------------------------------------------------------------------ *)
(** ** [fetchRSSFeeds] *)

Definition isArray (v : JsVal) : bool :=
  match v with
  | Val (DArr _) => true
  | _ => false
  end.

(** [Array.isArray(v) ? v : [v]] as the list of its elements *)
Definition as_array (v : JsVal) : list JsVal :=
  match v with
  | Val (DArr elems) => map Val elems
  | _ => [v]
  end.

(** [parsed.rss?.channel?.item] *)
Definition rss_channel_item (parsed : JsVal) : Result JsVal :=
  r <- get parsed "rss" ;; c <- opt_get r "channel" ;; opt_get c "item".

(** [parsed.feed?.entry] *)
Definition feed_entry (parsed : JsVal) : Result JsVal :=
  f <- get parsed "feed" ;; opt_get f "entry".

(** The [let items = []; if ... else if ...] block. *)
Definition select_items (parsed : JsVal) : Result (list JsVal) :=
  i <- rss_channel_item parsed ;;
  if truthy i then
    r <- get parsed "rss" ;; c <- get r "channel" ;; v <- get c "item" ;;
    Ok (as_array v)
  else
    e <- feed_entry parsed ;;
    if truthy e then
      f <- get parsed "feed" ;; v <- get f "entry" ;;
      Ok (as_array v)
    else Ok [].

(** The body of the [try] block for one feed: the new contents of
    [allItems], or the exception that leaves the block.  [seen] lists
    the feeds processed before this one, the latest first. *)
Definition try_feed (E : Env) (seen : list string) (feedUrl : string)
  (allItems : list NewsItem) : Result (list NewsItem) :=
  xmlData <- httpsRequest E feedUrl default_options ;;
  parsed <- XMLParser_parse E xmlData ;;
  items <- select_items (Val (DObj parsed)) ;;
  normalized <- normalizedItems (now_ISO E (feedUrl :: seen)) items ;;
  Ok (allItems ++ normalized)%list.

(** [for (const feedUrl of rssFeeds) { try {...} catch (error) {...} }] *)
Fixpoint for_feeds (E : Env) (seen : list string) (rssFeeds : list string)
  (allItems : list NewsItem) : Result (list NewsItem) :=
  match rssFeeds with
  | [] => Ok allItems
  | feedUrl :: rest =>
      allItems' <- try_catch (try_feed E seen feedUrl allItems)
                             (fun error => Ok allItems) ;;
      for_feeds E (feedUrl :: seen) rest allItems'
  end.

(** The nodes of one source: fetched, parsed and selected. *)
Definition source_nodes (E : Env) (feedUrl : string) : Result (list JsVal) :=
  xmlData <- httpsRequest E feedUrl default_options ;;
  parsed <- XMLParser_parse E xmlData ;;
  select_items (Val (DObj parsed)).

(** What one source yields when it is processed after the feeds
    [seen]: the normalized items, or the failure of one of its stages. *)
Definition source_items_after (E : Env) (seen : list string) (feedUrl : string)
  : Result (list NewsItem) :=
  xmlData <- httpsRequest E feedUrl default_options ;;
  parsed <- XMLParser_parse E xmlData ;;
  items <- select_items (Val (DObj parsed)) ;;
  normalizedItems (now_ISO E (feedUrl :: seen)) items.

(** What one source yields when it is processed alone. *)
Definition source_items (E : Env) (feedUrl : string) : Result (list NewsItem) :=
  source_items_after E [] feedUrl.

(** The items of a source that is processed to the end, nothing for
    one that is not. *)
Definition contributed_after (E : Env) (seen : list string) (feedUrl : string)
  : list NewsItem :=
  match source_items_after E seen feedUrl with
  | Ok l => l
  | _ => []
  end.

(** The items of the sources [rssFeeds] in the order of the loop. *)
Fixpoint collected_after (E : Env) (seen : list string) (rssFeeds : list string)
  : list NewsItem :=
  match rssFeeds with
  | [] => []
  | feedUrl :: rest =>
      contributed_after E seen feedUrl
      ++ collected_after E (feedUrl :: seen) rest
  end.

Definition collected (E : Env) (rssFeeds : list string) : list NewsItem :=
  collected_after E [] rssFeeds.

(** The request of the source or its parser never comes to an end. *)
Definition hangs (E : Env) (feedUrl : string) : Prop :=
  source_items E feedUrl = Never.

(** [new Date(b) - new Date(a)] on time values: [None] is [NaN]. *)
Definition Date_minus (x y : option Z) : option Z :=
  match x, y with
  | Some a, Some b => Some (a - b)
  | _, _ => None
  end.

(** [(a, b) => new Date(b.pubDate) - new Date(a.pubDate)] *)
Definition compareFn (E : Env) (a b : NewsItem) : Result (option Z) :=
  db <- Date_new E (pubDate b) ;;
  da <- Date_new E (pubDate a) ;;
  Ok (Date_minus db da).

(** The time value of the date of an item, [None] when there is none. *)
Definition timestamp (E : Env) (n : NewsItem) : option Z :=
  match Date_new E (pubDate n) with
  | Ok t => t
  | _ => None
  end.

(** The date of the item can be built: [new Date(n.pubDate)] returns. *)
Definition date_built (E : Env) (n : NewsItem) : Prop :=
  exists t, Date_new E (pubDate n) = Ok t.

(** The time value of the item as a number, 0 when there is none. *)
Definition time_key (E : Env) (n : NewsItem) : Z :=
  match timestamp E n with
  | Some t => t
  | None => 0
  end.

(** The comparator on items whose dates can be built. *)
Definition compare_times (E : Env) (a b : NewsItem) : option Z :=
  Date_minus (timestamp E b) (timestamp E a).

(** The stable arrangement for a consistent comparator, computed by
    insertion: a comparator result [NaN] counts as [0], and [x] is
    placed after [y] exactly when [cmp(x, y) > 0]. *)
Definition placed_after {A : Type} (cmp : A -> A -> option Z) (x y : A) : bool :=
  match cmp x y with
  | Some v => (0 <? v)%Z
  | None => false
  end.

Fixpoint sort_insert {A : Type} (cmp : A -> A -> option Z) (x : A) (l : list A)
  : list A :=
  match l with
  | [] => [x]
  | y :: rest =>
      if placed_after cmp x y then y :: sort_insert cmp x rest
      else x :: y :: rest
  end.

Fixpoint stable_sort {A : Type} (cmp : A -> A -> option Z) (l : list A) : list A :=
  match l with
  | [] => []
  | x :: rest => sort_insert cmp x (stable_sort cmp rest)
  end.

(** The sign of a comparator result. *)
Definition sgn (v : option Z) : Z :=
  match v with
  | Some z => Z.sgn z
  | None => 0
  end.

(** The comparator is consistent on the elements of [l], as the
    language defines it: equality of two elements under the comparator
    is reflexive, symmetric and transitive, and less-than and
    greater-than are transitive. *)
Definition consistent {A : Type} (c : A -> A -> option Z) (l : list A) : bool :=
  forallb (fun x =>
    Z.eqb (sgn (c x x)) 0
    && forallb (fun y =>
         implb (Z.eqb (sgn (c x y)) 0) (Z.eqb (sgn (c y x)) 0)
         && forallb (fun z =>
              implb (Z.eqb (sgn (c x y)) 0 && Z.eqb (sgn (c y z)) 0)
                    (Z.eqb (sgn (c x z)) 0)
              && implb (Z.ltb (sgn (c x y)) 0 && Z.ltb (sgn (c y z)) 0)
                       (Z.ltb (sgn (c x z)) 0)
              && implb (Z.ltb 0 (sgn (c x y)) && Z.ltb 0 (sgn (c y z)))
                       (Z.ltb 0 (sgn (c x z)))) l) l) l.

(** The first outcome of [f] on [l] that is not a value, if any. *)
Fixpoint first_failure {A B : Type} (f : A -> Result B) (l : list A)
  : Result unit :=
  match l with
  | [] => Ok tt
  | a :: rest => _ <- f a ;; first_failure f rest
  end.

Definition value_of {A : Type} (cmp : A -> A -> Result (option Z)) (x y : A)
  : option Z :=
  match cmp x y with
  | Ok v => v
  | _ => None
  end.

Definition is_arrangement (idx : list nat) (n : nat) : bool :=
  Nat.eqb (List.length idx) n
  && forallb (fun i => existsb (Nat.eqb i) idx) (seq 0 n).

(** The elements of [l] in the order of the indices [idx]; [l] itself
    when [idx] does not list every index once. *)
Definition arrange {A : Type} (idx : list nat) (l : list A) : list A :=
  if is_arrangement idx (List.length l)
  then flat_map (fun i => match nth_error l i with
                          | Some x => [x]
                          | None => []
                          end) idx
  else l.

(** [Array.prototype.sort(cmp)].  An array of fewer than two elements
    is returned without a comparison.  Otherwise every element is
    compared with another one at least once, so a comparator that
    fails on an element makes the sort fail (which failure comes first
    is up to the engine; the first in array order is taken here).  With
    a consistent comparator the result is the one stable sorted
    arrangement; with any other comparator it is an arrangement of the
    engine's choice, given by [order]. *)
Definition Array_sort {A : Type} (order : list A -> list nat)
  (cmp : A -> A -> Result (option Z)) (l : list A) : Result (list A) :=
  if (List.length l <=? 1)%nat then Ok l
  else
    _ <- first_failure (fun p => cmp (fst p) (snd p)) (list_prod l l) ;;
    Ok (if consistent (value_of cmp) l
        then stable_sort (value_of cmp) l
        else arrange (order l) l).

Definition fetchRSSFeeds (E : Env) (rssFeeds : list string)
  : Result (list NewsItem) :=
  allItems <- for_feeds E [] rssFeeds [] ;;
  Array_sort (sort_order E) (compareFn E) allItems.

Definition CONFIG_rssFeeds : list string :=
  [ "https://rss.nytimes.com/services/xml/rss/nyt/Economy.xml";
    "https://www.thenation.com/subject/politics/feed/";
    "https://moxie.foxnews.com/google-publisher/politics.xml" ].

(** [timestamp(a) >= timestamp(b)]; a comparison with [NaN] is false. *)
Definition ts_ge (x y : option Z) : bool :=
  match x, y with
  | Some a, Some b => (b <=? a)%Z
  | _, _ => false
  end.



(** The date of the item is a valid date. *)
Definition valid_date (E : Env) (n : NewsItem) : Prop := timestamp E n <> None.

Definition date_ge (E : Env) (a b : NewsItem) : Prop :=
  ts_ge (timestamp E a) (timestamp E b) = true.

(** Every adjacent pair [(a, b)] has [timestamp(a) >= timestamp(b)]. *)
Definition DescendingByDate (E : Env) (l : list NewsItem) : Prop :=
  Sorted (date_ge E) l.

(* ------------------------------------------------------------------ *)
(** ** [processWithAI] and [sendToTelegram] *)

Definition processWithAI (E : Env) (newsData : list NewsItem) : Result JsVal :=
  let body := completion_request E newsData in
  try_catch
    (response <-
       httpsRequest E "https://api.openai.com/v1/chat/completions"
         {| method := "POST";
            headers := [ ("Authorization", "Bearer " ++ openaiKey E);
                         ("Content-Type", "application/json");
                         ("Content-Length", string_of_Z (byteLength E body)) ];
            body := Some body |} ;;
     data <- JSON_parse E response ;;
     choices <- get (Val data) "choices" ;;
     first <- get choices "0" ;;
     message <- get first "message" ;;
     get message "content")
    (fun error => Throw error).

Definition sendToTelegram (E : Env) (message : JsVal) : Result JsVal :=
  let body := sendMessage_request E message in
  try_catch
    (response <-
       httpsRequest E
         ("https://api.telegram.org/bot" ++ telegramBot E ++ "/sendMessage")
         {| method := "POST";
            headers := [ ("Content-Type", "application/json");
                         ("Content-Length", string_of_Z (byteLength E body)) ];
            body := Some body |} ;;
     parsed <- JSON_parse E response ;;
     Ok (Val parsed))
    (fun error => Throw error).

(* ------------------------------------------------------------------ *)
(** ** [main] *)

(** A computation that records the calls to the two services. *)
Definition Task (A : Type) : Type := list Call * Result A.

Definition ret {A : Type} (a : A) : Task A := ([], Ok a).

Definition lift {A : Type} (r : Result A) : Task A := ([], r).

Definition invoke {A : Type} (c : Call) (outcome : Result A) : Task A :=
  ([c], outcome).

Definition tbind {A B : Type} (t : Task A) (k : A -> Task B) : Task B :=
  match t with
  | (log, Ok a) => let (log', r) := k a in ((log ++ log')%list, r)
  | (log, Throw e) => (log, Throw e)
  | (log, Never) => (log, Never)
  end.

Notation "x <~ t ;; k" := (tbind t (fun x => k))
  (at level 61, t at next level, right associativity).

Inductive Exit : Type :=
| Returned
| ProcessExit (code : Z)
| Unfinished.

Record Run : Type := { exit : Exit; calls : list Call }.

Definition main_body (E : Env) (rssFeeds : list string) : Task unit :=
  newsData <~ lift (fetchRSSFeeds E rssFeeds) ;;
  if Z.eqb (Z.of_nat (List.length newsData)) 0 then ret tt
  else
    processedMessage <~ invoke (Call_processWithAI (firstn 20 newsData))
                               (processWithAI E (firstn 20 newsData)) ;;
    _ <~ invoke (Call_sendToTelegram processedMessage)
                (sendToTelegram E processedMessage) ;;
    ret tt.

(** [main]: the [catch] turns any exception into [process.exit(1)];
    when an awaited promise never settles, [main] does not finish. *)
Definition main (E : Env) (rssFeeds : list string) : Run :=
  match main_body E rssFeeds with
  | (log, Ok _) => {| exit := Returned; calls := log |}
  | (log, Throw _) => {| exit := ProcessExit 1; calls := log |}
  | (log, Never) => {| exit := Unfinished; calls := log |}
  end.

(* ------------------------------------------------------------------ *)
(** ** A concrete environment for the examples *)

Definition digit (c : ascii) : option Z :=
  let n := Z.of_N (N_of_ascii c) in
  if ((48 <=? n) && (n <=? 57))%Z then Some (n - 48) else None.

Fixpoint number (acc : Z) (l : list ascii) : option Z :=
  match l with
  | [] => Some acc
  | c :: rest =>
      match digit c with
      | Some d => number (10 * acc + d) rest
      | None => None
      end
  end.

(** The decimal number written in the [len] characters from [off]. *)
Definition field (l : list ascii) (off len : nat) : option Z :=
  let cs := firstn len (skipn off l) in
  if Nat.eqb (List.length cs) len then number 0 cs else None.

Definition sep (l : list ascii) (off : nat) (c : ascii) : bool :=
  match nth_error l off with
  | Some c' => Ascii.eqb c c'
  | None => false
  end.

Definition leap (y : Z) : bool :=
  (Z.eqb (y mod 4) 0 && negb (Z.eqb (y mod 100) 0)) || Z.eqb (y mod 400) 0.

Definition days_in_month (y m : Z) : Z :=
  if Z.eqb m 2 then (if leap y then 29 else 28)
  else if Z.eqb m 4 || Z.eqb m 6 || Z.eqb m 9 || Z.eqb m 11 then 30
  else 31.

(** Days from 1970-01-01 to the day [d] of the month [m] of the year
    [y] in the proleptic Gregorian calendar. *)
Definition days_from_civil (y m d : Z) : Z :=
  let y' := if (m <=? 2)%Z then y - 1 else y in
  let era := y' / 400 in
  let yoe := y' - era * 400 in
  let mp := if (m <=? 2)%Z then m + 9 else m - 3 in
  let doy := (153 * mp + 2) / 5 + d - 1 in
  let doe := yoe * 365 + yoe / 4 - yoe / 100 + doy in
  era * 146097 + doe - 719468.

(** [Date.parse] on the form [YYYY-MM-DDTHH:mm:ssZ] of the ISO format;
    every other string is read as an invalid date. *)
Definition Date_parse_ISO (s : string) : option Z :=
  let l := list_ascii_of_string s in
  if Nat.eqb (List.length l) 20
     && sep l 4 "-"%char && sep l 7 "-"%char && sep l 10 "T"%char
     && sep l 13 ":"%char && sep l 16 ":"%char && sep l 19 "Z"%char
  then
    match field l 0 4, field l 5 2, field l 8 2,
          field l 11 2, field l 14 2, field l 17 2 with
    | Some y, Some m, Some d, Some h, Some mi, Some sec =>
        if ((1 <=? m) && (m <=? 12) && (1 <=? d) && (d <=? days_in_month y m)
            && (h <=? 23) && (mi <=? 59) && (sec <=? 59))%Z
        then Some (((days_from_civil y m d * 24 + h) * 60 + mi) * 60000
                   + sec * 1000)
        else None
    | _, _, _, _, _, _ => None
    end
  else None.

(** [TimeClip(ToNumber(n))]: a number is a time value when it is
    finite and at most 8.64e15 in absolute value; it is truncated. *)
Definition TimeClip (n : JsNum) : option Z :=
  match n with
  | Finite q =>
      if (Z.abs (Qnum q) <=? 8640000000000000 * Zpos (Qden q))%Z
      then Some (Z.quot (Qnum q) (Zpos (Qden q)))
      else None
  | _ => None
  end.

(** The time value of a [Date] built from an array or an object, which
    is first converted to a string: an array of one element converts as
    that element, any other array and any object to a string that is
    not in the ISO format. *)
Fixpoint Date_of_object (d : Data) : option Z :=
  match d with
  | DStr s => Date_parse_ISO s
  | DArr [x] =>
      match x with
      | DStr _ | DArr _ => Date_of_object x
      | _ => None
      end
  | _ => None
  end.

(** The conversion of [d] to a string throws: [d] is an object with
    an own property [toString] (parsed data is never callable), or an
    array that holds such an object. *)
Fixpoint unprintable (d : Data) : bool :=
  match d with
  | DObj props =>
      match own "toString" props with
      | Some _ => true
      | None => false
      end
  | DArr elems => existsb unprintable elems
  | _ => false
  end.

(** [new Date(v)] in an engine that reads a string by [Date_parse_ISO]
    only. *)
Definition ISO_Date (v : JsVal) : Result (option Z) :=
  match v with
  | Undefined => Ok None
  | Val DNull => Ok (Some 0)
  | Val (DBool b) => Ok (Some (if b then 1 else 0))
  | Val (DNum n) => Ok (TimeClip n)
  | Val d =>
      if unprintable d
      then Throw (TypeError "Cannot convert object to primitive value")
      else Ok (Date_of_object d)
  | Builtin _ => Ok None
  end.

Fixpoint assoc {A : Type} (k : string) (table : list (string * A)) : option A :=
  match table with
  | [] => None
  | (k', a) :: rest => if String.eqb k k' then Some a else assoc k rest
  end.

(** A small world: [sites] gives the exchange for each URL (any other
    URL is unreachable), [documents] what the XML parser builds for
    each response body (any other body parses to the empty object),
    [replies] what [JSON.parse] builds for each response body (any
    other body is rejected); the clock stands still, and the sort
    leaves an array as it is when the comparator is not consistent. *)
Definition world (sites : list (string * Exchange))
  (documents : list (string * list (string * Data)))
  (replies : list (string * Data)) : Env :=
  {| https_request := fun url _ =>
       match assoc url sites with
       | Some x => x
       | None => Failed (Error "getaddrinfo ENOTFOUND")
       end;
     XMLParser_parse := fun xmlData =>
       match assoc xmlData documents with
       | Some d => Ok d
       | None => Ok []
       end;
     now_ISO := fun _ _ => "2025-06-01T12:00:00Z";
     Date_new := ISO_Date;
     sort_order := fun l => seq 0 (List.length l);
     JSON_parse := fun text =>
       match assoc text replies with
       | Some d => Ok d
       | None => Throw (Error "Unexpected token in JSON")
       end;
     completion_request := fun _ => "(completion request)";
     sendMessage_request := fun _ => "(sendMessage request)";
     byteLength := fun text => Z.of_nat (String.length text);
     openaiKey := "key";
     telegramBot := "token" |}.

Definition item_object (props : list (string * Data)) : JsVal := Val (DObj props).


(** A node is normalizable when [description || summary || ''] is a
    string (which also needs the node not to be [undefined] or [null]). *)
Definition normalizable (item : JsVal) : Prop :=
  exists c, content_source item = Ok (str c).

(** *** Example documents and worlds *)

Definition rss_document (item : Data) : list (string * Data) :=
  [("rss", DObj [("channel", DObj [("item", item)])])].

Definition atom_document (entry : Data) : list (string * Data) :=
  [("feed", DObj [("entry", entry)])].

(** The item [<item><title>t</title><pubDate>d</pubDate></item>] *)
Definition rss_item (t d : string) : Data :=
  DObj [("title", DStr t); ("pubDate", DStr d)].

(** The entry [<entry><title>t</title><published>d</published></entry>] *)
Definition atom_entry (t d : string) : Data :=
  DObj [("title", DStr t); ("published", DStr d)].

(** What either of them normalizes to. *)
Definition plain_news (t d : string) : NewsItem :=
  {| title := str t; link := str ""; pubDate := str d; content := str "";
     contentSnippet := str ""; creator := str "Unknown" |}.

Definition url_one : string := "https://one.example/rss.xml".
Definition url_two : string := "https://two.example/rss.xml".
Definition url_three : string := "https://three.example/atom.xml".

Definition body_one : string :=
  "<rss><channel><item><title>A</title><pubDate>2024-01-01T00:00:00Z</pubDate></item><item><title>B</title><pubDate>2024-01-03T00:00:00Z</pubDate></item></channel></rss>".

Definition body_three : string :=
  "<feed><entry><title>C</title><published>2024-01-02T00:00:00Z</published></entry></feed>".

(** Three sources of which the second answers 500; the two services
    answer (their response bodies are abbreviated). *)
Definition second_fails : Env :=
  world
    [ (url_one, Responded 200 [body_one]);
      (url_two, Responded 500 ["Internal Server Error"]);
      (url_three, Responded 200 [body_three]);
      ("https://api.openai.com/v1/chat/completions",
       Responded 200 ["(completion "; "response)"]);
      ("https://api.telegram.org/bottoken/sendMessage",
       Responded 200 ["(sendMessage response)"]) ]
    [ (body_one, rss_document (DArr [ rss_item "A" "2024-01-01T00:00:00Z";
                                      rss_item "B" "2024-01-03T00:00:00Z" ]));
      (body_three, atom_document (atom_entry "C" "2024-01-02T00:00:00Z")) ]
    [ ("(completion response)",
       DObj [("choices",
              DArr [DObj [("message", DObj [("role", DStr "assistant");
                                            ("content", DStr "digest")])]])]);
      ("(sendMessage response)", DObj [("ok", DBool true)]) ].

Definition body_undated : string :=
  "<rss><channel><item><title>X</title><pubDate>yesterday</pubDate></item></channel></rss>".

Definition body_dated : string :=
  "<rss><channel><item><title>Y</title><pubDate>2024-01-01T00:00:00Z</pubDate></item></channel></rss>".

(** Two sources of one item each; the date of the first is not a date. *)
Definition one_bad_date : Env :=
  world
    [ (url_one, Responded 200 [body_undated]);
      (url_two, Responded 200 [body_dated]) ]
    [ (body_undated, rss_document (rss_item "X" "yesterday"));
      (body_dated, rss_document (rss_item "Y" "2024-01-01T00:00:00Z")) ]
    [].

(** A document with both shapes. *)
Definition both_shapes : list (string * Data) :=
  rss_document (rss_item "A" "2024-01-01T00:00:00Z")
  ++ atom_document (atom_entry "C" "2024-01-02T00:00:00Z").

(** *** Direct readings used in further statements *)

(** [v || d] on values *)
Definition or_value (v d : JsVal) : JsVal := if truthy v then v else d.

(** The property [k] of an object with the properties [props] *)
Definition prop (k : string) (props : list (string * Data)) : JsVal :=
  match own k props with
  | Some d => Val d
  | None => Undefined
  end.

(** [v?.k] as a value *)
Definition nested (v : JsVal) (k : string) : JsVal :=
  match opt_get v k with
  | Ok x => x
  | _ => Undefined
  end.

(** The item of defaults, with the given [link]. *)
Definition default_news (now : string) (l : JsVal) : NewsItem :=
  {| title := str "No title"; link := l; pubDate := str now;
     content := str ""; contentSnippet := str ""; creator := str "Unknown" |}.

Definition completions_url : string :=
  "https://api.openai.com/v1/chat/completions".

(** The options that [processWithAI] passes to [httpsRequest]. *)
Definition completion_options (E : Env) (newsData : list NewsItem) : Options :=
  let body := completion_request E newsData in
  {| method := "POST";
     headers := [ ("Authorization", "Bearer " ++ openaiKey E);
                  ("Content-Type", "application/json");
                  ("Content-Length", string_of_Z (byteLength E body)) ];
     body := Some body |}.

Definition sendMessage_url (E : Env) : string :=
  "https://api.telegram.org/bot" ++ telegramBot E ++ "/sendMessage".

(** The options that [sendToTelegram] passes to [httpsRequest]. *)
Definition sendMessage_options (E : Env) (message : JsVal) : Options :=
  let body := sendMessage_request E message in
  {| method := "POST";
     headers := [ ("Content-Type", "application/json");
                  ("Content-Length", string_of_Z (byteLength E body)) ];
     body := Some body |}.

(** *** Further example worlds *)

(** The entry [D] has a summary with an attribute. *)
Definition attributed_entries : list JsVal :=
  [ Val (atom_entry "C" "2024-01-02T00:00:00Z");
    Val (DObj [("title", DStr "D");
               ("summary", DObj [("#text", DStr "text");
                                 ("@_type", DStr "html")])]) ].

Definition attributed_summary : Env :=
  world
    [ (url_three, Responded 200 [body_three]) ]
    [ (body_three,
       atom_document
         (DArr [ atom_entry "C" "2024-01-02T00:00:00Z";
                 DObj [("title", DStr "D");
                       ("summary", DObj [("#text", DStr "text");
                                         ("@_type", DStr "html")])] ])) ]
    [].

(** One source whose two items are already newest first. *)
Definition newest_first : Env :=
  world
    [ (url_one, Responded 200 [body_one]) ]
    [ (body_one, rss_document (DArr [ rss_item "B" "2024-01-03T00:00:00Z";
                                      rss_item "A" "2024-01-01T00:00:00Z" ])) ]
    [].

(** One source with one item; the completion service answers with the
    JSON data [reply]. *)
Definition completion_answers (reply : Data) : Env :=
  world
    [ (url_two, Responded 200 [body_dated]);
      (completions_url, Responded 200 ["(completion response)"]);
      ("https://api.telegram.org/bottoken/sendMessage",
       Responded 200 ["(sendMessage response)"]) ]
    [ (body_dated, rss_document (rss_item "Y" "2024-01-01T00:00:00Z")) ]
    [ ("(completion response)", reply);
      ("(sendMessage response)", DObj [("ok", DBool true)]) ].

(** Two sources: the response of the first is cut before its end. *)
Definition first_is_cut : Env :=
  world
    [ (url_one, Aborted 200 ["<rss><chan"]);
      (url_two, Responded 200 [body_dated]) ]
    [ (body_dated, rss_document (rss_item "Y" "2024-01-01T00:00:00Z")) ]
    [].

Definition body_odd_date : string :=
  "<rss><channel><item><title>X</title><pubDate><toString>now</toString></pubDate></item><item><title>Y</title><pubDate>2024-01-01T00:00:00Z</pubDate></item></channel></rss>".

(** One source with two items; the date of the first is an element
    with a child element named [toString]. *)
Definition odd_date : Env :=
  world
    [ (url_one, Responded 200 [body_odd_date]) ]
    [ (body_odd_date,
       rss_document
         (DArr [ DObj [("title", DStr "X");
                       ("pubDate", DObj [("toString", DStr "now")])];
                 rss_item "Y" "2024-01-01T00:00:00Z" ])) ]
    [].

(* ================================================================== *)
(** * Properties *)

(** ** The result monad and the value operators *)

Lemma bind_Ok {A B : Type} (c : Result A) (k : A -> Result B) (b : B) :
  (x <- c ;; k x) = Ok b -> exists a, c = Ok a /\ k a = Ok b.
Proof.
  destruct c as [a | e | ]; simpl; intros H.
  - exists a; split; [reflexivity | exact H].
  - discriminate H.
  - discriminate H.
Qed.

Lemma or_else_Ok (a b : Result JsVal) (v : JsVal) :
  (a ||| b) = Ok v ->
  (a = Ok v /\ truthy v = true) \/
  (exists x, a = Ok x /\ truthy x = false /\ b = Ok v).
Proof.
  unfold or_else. intros H.
  apply bind_Ok in H. destruct H as [x [Ha Hx]].
  destruct (truthy x) eqn:T.
  - left. injection Hx as <-. split; assumption.
  - right. exists x. repeat split; assumption.
Qed.

Lemma truthy_defined (v : JsVal) : truthy v = true -> defined v = true.
Proof.
  destruct v as [ | d | f]; simpl; try (intros; reflexivity || discriminate).
  destruct d; simpl; intros; reflexivity || discriminate.
Qed.

Lemma get_defined (v : JsVal) (k : string) :
  defined v = true -> exists x, get v k = Ok x.
Proof.
  destruct v as [ | d | f]; simpl; try discriminate.
  - destruct d; simpl; try discriminate; intros _; eexists; reflexivity.
  - intros _; eexists; reflexivity.
Qed.

Lemma get_Ok_defined (v : JsVal) (k : string) (x : JsVal) :
  get v k = Ok x -> defined v = true.
Proof.
  destruct v as [ | d | f]; simpl; try discriminate; try reflexivity.
  destruct d; simpl; try discriminate; reflexivity.
Qed.

(** A falsy value has none of the nested properties that the
    normalizer looks for. *)
Lemma falsy_no_text (x : JsVal) :
  truthy x = false -> opt_get x "#text" = Ok Undefined.
Proof.
  destruct x as [ | d | f]; simpl; try discriminate; try reflexivity.
  destruct d; simpl; try discriminate; reflexivity.
Qed.

Lemma falsy_no_href (x : JsVal) :
  truthy x = false -> opt_get x "@_href" = Ok Undefined.
Proof.
  destruct x as [ | d | f]; simpl; try discriminate; try reflexivity.
  destruct d; simpl; try discriminate; reflexivity.
Qed.

(** [a || d] with a constant [d] is [a] when [a] is truthy, else [d]. *)
Lemma or_default_Ok (a : Result JsVal) (d v : JsVal) :
  (a ||| Ok d) = Ok v -> (a = Ok v /\ truthy v = true) \/ v = d.
Proof.
  intros H. apply or_else_Ok in H. destruct H as [H | [x [_ [_ H]]]].
  - left; exact H.
  - right. injection H as <-. reflexivity.
Qed.

(** ** What each field of a normalized item is *)

Section Fields.
Variables (now : string) (item : JsVal) (n : NewsItem).
Hypothesis Hn : normalize_item now item = Ok n.

Lemma fields_of_normalized :
  (get item "title" ||| (t <- get item "title" ;; opt_get t "#text")
     ||| Ok (str "No title")) = Ok (title n)
  /\ (get item "link" ||| (l <- get item "link" ;; opt_get l "@_href")
        ||| Ok (str "")) = Ok (link n)
  /\ (get item "pubDate" ||| get item "published" ||| Ok (str now))
     = Ok (pubDate n)
  /\ content_source item = Ok (content n)
  /\ (exists y, call_replace_tags (content n) = Ok y
                /\ call_substring_to 120 y = Ok (contentSnippet n))
  /\ (get item "dc:creator" ||| (a <- get item "author" ;; opt_get a "name")
        ||| Ok (str "Unknown")) = Ok (creator n).
Proof.
  unfold normalize_item in Hn.
  apply bind_Ok in Hn. destruct Hn as [t [Ht H1]].
  apply bind_Ok in H1. destruct H1 as [l [Hl H2]].
  apply bind_Ok in H2. destruct H2 as [p [Hp H3]].
  apply bind_Ok in H3. destruct H3 as [c [Hc H4]].
  apply bind_Ok in H4. destruct H4 as [s [Hs H5]].
  apply bind_Ok in H5. destruct H5 as [a [Ha H6]].
  injection H6 as <-. simpl.
  repeat split; try assumption.
  apply bind_Ok in Hs. destruct Hs as [x [Hx Hs]].
  apply bind_Ok in Hs. destruct Hs as [y [Hy Hs]].
  unfold content_source in Hc. rewrite Hc in Hx. injection Hx as <-.
  exists y. split; assumption.
Qed.

(** [title] is the truthy [item.title], else ["No title"]: the value
    under ["#text"] is only looked for in a falsy [item.title]. *)
Lemma title_resolution :
  (get item "title" = Ok (title n) /\ truthy (title n) = true)
  \/ title n = str "No title".
Proof.
  destruct fields_of_normalized as [H _].
  apply or_default_Ok in H. destruct H as [[H T] | H]; [ | right; exact H].
  apply or_else_Ok in H. destruct H as [H | [x [Hx [Fx H]]]].
  - left. split; [apply H | exact T].
  - apply bind_Ok in H. destruct H as [t [Ht H]].
    rewrite Hx in Ht. injection Ht as <-.
    rewrite (falsy_no_text x Fx) in H. injection H as H.
    rewrite <- H in T. discriminate T.
Qed.

(** [link] is the truthy [item.link], else [""]. *)
Lemma link_resolution :
  (get item "link" = Ok (link n) /\ truthy (link n) = true)
  \/ link n = str "".
Proof.
  destruct fields_of_normalized as [_ [H _]].
  apply or_default_Ok in H. destruct H as [[H T] | H]; [ | right; exact H].
  apply or_else_Ok in H. destruct H as [H | [x [Hx [Fx H]]]].
  - left. split; [apply H | exact T].
  - apply bind_Ok in H. destruct H as [t [Ht H]].
    rewrite Hx in Ht. injection Ht as <-.
    rewrite (falsy_no_href x Fx) in H. injection H as H.
    rewrite <- H in T. discriminate T.
Qed.

Lemma pubDate_resolution :
  (get item "pubDate" = Ok (pubDate n) /\ truthy (pubDate n) = true)
  \/ (get item "published" = Ok (pubDate n) /\ truthy (pubDate n) = true)
  \/ pubDate n = str now.
Proof.
  destruct fields_of_normalized as [_ [_ [H _]]].
  apply or_default_Ok in H. destruct H as [[H T] | H]; [ | right; right; exact H].
  apply or_else_Ok in H. destruct H as [H | [x [Hx [Fx H]]]].
  - left. split; [apply H | exact T].
  - right; left. split; assumption.
Qed.

Lemma creator_resolution :
  (get item "dc:creator" = Ok (creator n) /\ truthy (creator n) = true)
  \/ ((a <- get item "author" ;; opt_get a "name") = Ok (creator n)
      /\ truthy (creator n) = true)
  \/ creator n = str "Unknown".
Proof.
  destruct fields_of_normalized as [_ [_ [_ [_ [_ H]]]]].
  apply or_default_Ok in H. destruct H as [[H T] | H]; [ | right; right; exact H].
  apply or_else_Ok in H. destruct H as [H | [x [Hx [Fx H]]]].
  - left. split; [apply H | exact T].
  - right; left. split; assumption.
Qed.

(** A normalized item exists only if [content] is a string, and the
    snippet is computed from that string. *)
Lemma content_and_snippet :
  exists c, content n = str c
            /\ contentSnippet n = str (substring_to 120 (strip_tags c)).
Proof.
  destruct fields_of_normalized as [_ [_ [_ [_ [[y [Hy Hs]] _]]]]].
  unfold call_replace_tags in Hy.
  apply bind_Ok in Hy. destruct Hy as [f [Hf Hy]].
  destruct f as [ | d | b]; try discriminate Hy.
  destruct (content n) as [ | [ | | | c | | ] | ]; try discriminate Hy.
  injection Hy as <-. exists c. split; [reflexivity | ].
  simpl in Hs. injection Hs as <-. reflexivity.
Qed.

Lemma content_resolution :
  (get item "description" = Ok (content n) /\ truthy (content n) = true)
  \/ (get item "summary" = Ok (content n) /\ truthy (content n) = true)
  \/ content n = str "".
Proof.
  destruct fields_of_normalized as [_ [_ [_ [H _]]]].
  unfold content_source in H.
  apply or_default_Ok in H. destruct H as [[H T] | H]; [ | right; right; exact H].
  apply or_else_Ok in H. destruct H as [H | [x [Hx [Fx H]]]].
  - left. split; [apply H | exact T].
  - right; left. split; assumption.
Qed.
End Fields.

(** ** Stripping and truncating *)



Lemma has_gt_substring_to (n : nat) (s : string) :
  has_gt s = false -> has_gt (substring_to n s) = false.
Proof.
  unfold substring_to. revert s.
  induction n as [ | n IH]; intros [ | c r]; simpl; try reflexivity.
  intros H. apply orb_false_iff in H. destruct H as [Hc Hr].
  rewrite Hc, (IH r Hr). reflexivity.
Qed.

Lemma tag_free_substring_to (n : nat) (s : string) :
  tag_free s = true -> tag_free (substring_to n s) = true.
Proof.
  revert s.
  induction n as [ | n IH]; intros [ | c r]; simpl; try reflexivity.
  intros H. apply andb_true_iff in H. destruct H as [Hc Hr].
  change (String.substring 0 n r) with (substring_to n r).
  rewrite (IH r Hr), andb_true_r.
  destruct (is_lt c); [ | reflexivity].
  apply negb_true_iff in Hc. rewrite (has_gt_substring_to n r Hc). reflexivity.
Qed.

Lemma strip_tags_no_gt (s : string) : has_gt s = false -> strip_tags s = s.
Proof.
  induction s as [ | c r IH]; simpl; [reflexivity | ].
  intros H. apply orb_false_iff in H. destruct H as [Hc Hr].
  rewrite Hr, andb_false_r, (IH Hr). reflexivity.
Qed.

Lemma strip_tags_tag_free (s : string) :
  tag_free (strip_tags s) = true /\ tag_free (strip_inside s) = true.
Proof.
  induction s as [ | c r [IHt IHi]]; simpl.
  - split; reflexivity.
  - split.
    + destruct (is_lt c) eqn:L; simpl.
      * destruct (has_gt r) eqn:G; [exact IHi | ].
        simpl. rewrite L, (strip_tags_no_gt r G), G. simpl.
        rewrite <- (strip_tags_no_gt r G). exact IHt.
      * rewrite L. exact IHt.
    + destruct (is_gt c); assumption.
Qed.






(** ** The normalizer *)

Lemma alternatives_total (a b : Result JsVal) (d : JsVal) :
  (exists x, a = Ok x) ->
  (forall x, a = Ok x -> truthy x = false -> exists y, b = Ok y) ->
  exists v, (a ||| b ||| Ok d) = Ok v.
Proof.
  intros [x Ha] Hb. unfold or_else. rewrite Ha. simpl.
  destruct (truthy x) eqn:T; simpl.
  - rewrite T. eexists; reflexivity.
  - destruct (Hb x Ha T) as [y Hy]. rewrite Hy. simpl.
    destruct (truthy y); eexists; reflexivity.
Qed.

Lemma opt_get_total (v : JsVal) (k : string) : exists x, opt_get v k = Ok x.
Proof.
  unfold opt_get. destruct (defined v) eqn:D.
  - apply get_defined, D.
  - eexists; reflexivity.
Qed.

(** The normalizer returns exactly on the nodes that are neither
    [undefined] nor [null] and whose [description || summary || ''] is
    a string. *)
Lemma normalize_item_total (now : string) (item : JsVal) (c : string) :
  content_source item = Ok (str c) ->
  exists n, normalize_item now item = Ok n.
Proof.
  intros Hc.
  assert (D : defined item = true).
  { unfold content_source in Hc. apply or_else_Ok in Hc.
    destruct Hc as [[Hc _] | [x [Hc _]]];
      apply or_else_Ok in Hc; destruct Hc as [[Hc _] | [y [Hc _]]];
      exact (get_Ok_defined _ _ _ Hc). }
  unfold normalize_item.
  destruct (alternatives_total (get item "title")
              (t <- get item "title" ;; opt_get t "#text") (str "No title"))
    as [t Ht].
  { apply get_defined, D. }
  { intros x Hx _. rewrite Hx. simpl. apply opt_get_total. }
  rewrite Ht. simpl.
  destruct (alternatives_total (get item "link")
              (l <- get item "link" ;; opt_get l "@_href") (str ""))
    as [l Hl].
  { apply get_defined, D. }
  { intros x Hx _. rewrite Hx. simpl. apply opt_get_total. }
  rewrite Hl. simpl.
  destruct (alternatives_total (get item "pubDate") (get item "published")
              (str now)) as [p Hp].
  { apply get_defined, D. }
  { intros x _ _. apply get_defined, D. }
  rewrite Hp. simpl.
  unfold content_source in Hc. rewrite Hc. simpl.
  destruct (alternatives_total (get item "dc:creator")
              (a <- get item "author" ;; opt_get a "name") (str "Unknown"))
    as [a Ha].
  { apply get_defined, D. }
  { intros x _ _. destruct (get_defined item "author" D) as [y Hy].
    rewrite Hy. simpl. apply opt_get_total. }
  rewrite Ha. simpl. eexists; reflexivity.
Qed.

(** The normalizer awaits nothing: it always comes to an end. *)
Lemma bind_ends {A B : Type} (c : Result A) (k : A -> Result B) :
  c <> Never -> (forall a, k a <> Never) -> (x <- c ;; k x) <> Never.
Proof.
  destruct c as [a | e | ]; simpl; intros Hc Hk.
  - apply Hk.
  - discriminate.
  - elim Hc; reflexivity.
Qed.

Lemma get_ends (v : JsVal) (k : string) : get v k <> Never.
Proof.
  destruct v as [ | d | f]; simpl; try discriminate.
  destruct d; discriminate.
Qed.

Lemma opt_get_ends (v : JsVal) (k : string) : opt_get v k <> Never.
Proof.
  unfold opt_get. destruct (defined v); [apply get_ends | discriminate].
Qed.

Lemma or_else_ends (a b : Result JsVal) :
  a <> Never -> b <> Never -> (a ||| b) <> Never.
Proof.
  intros Ha Hb. unfold or_else. apply bind_ends; [exact Ha | ].
  intros x. destruct (truthy x); [discriminate | exact Hb].
Qed.

Lemma call_replace_tags_ends (x : JsVal) : call_replace_tags x <> Never.
Proof.
  unfold call_replace_tags. apply bind_ends; [apply get_ends | ].
  intros f. destruct f as [ | d | g]; try discriminate.
  destruct x as [ | [ | | | | | ] | ]; discriminate.
Qed.

Lemma call_substring_to_ends (n : nat) (x : JsVal) :
  call_substring_to n x <> Never.
Proof.
  unfold call_substring_to. apply bind_ends; [apply get_ends | ].
  intros f. destruct f as [ | d | g]; try discriminate.
  destruct x as [ | [ | | | | | ] | ]; discriminate.
Qed.

Ltac ends :=
  repeat first
    [ apply get_ends | apply opt_get_ends | apply call_replace_tags_ends
    | apply call_substring_to_ends | apply or_else_ends
    | apply bind_ends; [ | intros ? ] | discriminate ].

Lemma normalize_item_ends (now : string) (item : JsVal) :
  normalize_item now item <> Never.
Proof. unfold normalize_item. ends. Qed.

Lemma normalizedItems_from_ends
  (now : nat -> string) (items : list JsVal) (i : nat) :
  normalizedItems_from now i items <> Never.
Proof.
  revert i. induction items as [ | item rest IH]; intros i; simpl.
  - discriminate.
  - apply bind_ends; [apply normalize_item_ends | intros n].
    apply bind_ends; [apply IH | discriminate].
Qed.

Lemma select_items_ends (parsed : JsVal) : select_items parsed <> Never.
Proof.
  unfold select_items, rss_channel_item, feed_entry.
  apply bind_ends; [ends | intros i].
  destruct (truthy i); [ends | ].
  apply bind_ends; [ends | intros e].
  destruct (truthy e); ends.
Qed.

Lemma normalize_item_throws (now : string) (item : JsVal) :
  (forall c, content_source item <> Ok (str c)) ->
  throws (normalize_item now item).
Proof.
  intros H. destruct (normalize_item now item) as [n | e | ] eqn:E.
  - destruct (content_and_snippet now item n E) as [c [Hc _]].
    destruct (fields_of_normalized now item n E) as [_ [_ [_ [Hs _]]]].
    rewrite Hc in Hs. elim (H c Hs).
  - exists e; reflexivity.
  - elim (normalize_item_ends now item E).
Qed.

(** C1 (the code at the entry of the scenario): with no title, a link
    that is an object with the property ["@_href"], and an author
    object named Bob, the title is ["No title"] and the creator is
    ["Bob"], but the link is the whole link object and not the string
    under ["@_href"]. *)
Theorem C1_link_object_is_kept (now : string) :
  normalize_item now
    (item_object [("link", DObj [("@_href", DStr "http://x")]);
                  ("author", DObj [("name", DStr "Bob")])])
  = Ok {| title := str "No title";
          link := Val (DObj [("@_href", DStr "http://x")]);
          pubDate := str now;
          content := str "";
          contentSnippet := str "";
          creator := str "Bob" |}.
Proof. reflexivity. Qed.

(** C2 is false as stated: a title that the parser read as the number
    2024 is passed on as a number. *)
Lemma C2_counterexample :
  exists n,
    normalize_item "2025-06-01T12:00:00Z"
      (item_object [("title", DNum (Finite (2024 # 1)))]) = Ok n
    /\ is_string (title n) = false.
Proof. eexists. split; reflexivity. Qed.


(** C2 (amended): in every item that the normalizer produces, each of
    the six fields is present and neither [undefined] nor [null];
    [content] and [contentSnippet] are strings; [title], [link],
    [pubDate] and [creator] are strings whenever the source values they
    are read from are strings or falsy. *)
Theorem C2_fields_defined
  (now : string) (item : JsVal) (n : NewsItem)
  (Hn : normalize_item now item = Ok n) :
  (defined (title n) = true /\ defined (link n) = true
   /\ defined (pubDate n) = true /\ defined (content n) = true
   /\ defined (contentSnippet n) = true /\ defined (creator n) = true)
  /\ is_string (content n) = true
  /\ is_string (contentSnippet n) = true
  /\ (textual (get item "title") -> is_string (title n) = true)
  /\ (textual (get item "link") -> is_string (link n) = true)
  /\ (textual (get item "pubDate") -> textual (get item "published") ->
      is_string (pubDate n) = true)
  /\ (textual (get item "dc:creator") ->
      textual (a <- get item "author" ;; opt_get a "name") ->
      is_string (creator n) = true).
Proof.
  destruct (content_and_snippet now item n Hn) as [c [Hc Hs]].
  pose proof (title_resolution now item n Hn) as Ht.
  pose proof (link_resolution now item n Hn) as Hl.
  pose proof (pubDate_resolution now item n Hn) as Hp.
  pose proof (creator_resolution now item n Hn) as Ha.
  split; [ | split; [ | split; [ | repeat split ] ] ].
  - repeat split.
    + destruct Ht as [[_ T] | ->]; [apply truthy_defined, T | reflexivity].
    + destruct Hl as [[_ T] | ->]; [apply truthy_defined, T | reflexivity].
    + destruct Hp as [[_ T] | [[_ T] | ->]];
        [apply truthy_defined, T | apply truthy_defined, T | reflexivity].
    + rewrite Hc; reflexivity.
    + rewrite Hs; reflexivity.
    + destruct Ha as [[_ T] | [[_ T] | ->]];
        [apply truthy_defined, T | apply truthy_defined, T | reflexivity].
  - rewrite Hc; reflexivity.
  - rewrite Hs; reflexivity.
  - intros S. destruct Ht as [[G T] | ->]; [exact (S _ G T) | reflexivity].
  - intros S. destruct Hl as [[G T] | ->]; [exact (S _ G T) | reflexivity].
  - intros S1 S2.
    destruct Hp as [[G T] | [[G T] | ->]];
      [exact (S1 _ G T) | exact (S2 _ G T) | reflexivity].
  - intros S1 S2.
    destruct Ha as [[G T] | [[G T] | ->]];
      [exact (S1 _ G T) | exact (S2 _ G T) | reflexivity].
Qed.

Lemma C2_witness :
  let item := item_object [("title", DStr "A");
                           ("pubDate", DStr "2024-01-01T00:00:00Z")] in
  let n := {| title := str "A"; link := str "";
              pubDate := str "2024-01-01T00:00:00Z";
              content := str ""; contentSnippet := str "";
              creator := str "Unknown" |} in
  normalize_item "2025-06-01T12:00:00Z" item = Ok n
  /\ (defined (title n) = true /\ defined (link n) = true
      /\ defined (pubDate n) = true /\ defined (content n) = true
      /\ defined (contentSnippet n) = true /\ defined (creator n) = true).
Proof.
  intros item n. split; [reflexivity | ].
  apply (C2_fields_defined "2025-06-01T12:00:00Z" item n). reflexivity.
Defined.

(** C6 (the code at two nodes that a parser builds): a description
    that was read as the number 123, and a summary that carries an
    attribute and so is an object, both make the normalizer throw. *)
Theorem C6_non_string_content_throws (now : string) :
  normalize_item now
    (item_object [("title", DStr "A"); ("description", DNum (Finite (123 # 1)))])
  = Throw (TypeError "replace is not a function")
  /\ normalize_item now
       (item_object [("title", DStr "B");
                     ("summary", DObj [("#text", DStr "text");
                                       ("@_type", DStr "html")])])
     = Throw (TypeError "replace is not a function").
Proof. split; reflexivity. Qed.

(** ** [httpsRequest] *)

Lemma append_assoc (a b c : string) : ((a ++ b) ++ c = a ++ (b ++ c))%string.
Proof. induction a as [ | x a IH]; simpl; [ | rewrite IH]; reflexivity. Qed.

Lemma append_empty_r (a : string) : (a ++ "" = a)%string.
Proof. induction a as [ | x a IH]; simpl; [ | rewrite IH]; reflexivity. Qed.

(** Accumulating the chunks with [data += chunk] gives their
    concatenation. *)
Lemma data_is_concat (chunks : list string) (acc : string) :
  fold_left append chunks acc = (acc ++ String.concat "" chunks)%string.
Proof.
  revert acc. induction chunks as [ | x l IH]; intros acc.
  - simpl. symmetry. apply append_empty_r.
  - change (fold_left append (x :: l) acc) with (fold_left append l (acc ++ x)).
    rewrite IH, append_assoc. f_equal.
    destruct l as [ | y l]; [apply append_empty_r | reflexivity].
Qed.

(** C7 is false as stated: a response with status code 200 whose
    connection is cut before its end leaves the promise pending, so
    [httpsRequest] neither resolves nor rejects. *)
Lemma C7_counterexample :
  https_request first_is_cut url_one default_options
  = Aborted 200 ["<rss><chan"]
  /\ httpsRequest first_is_cut url_one default_options = Never.
Proof. split; reflexivity. Qed.

(** C7 (amended): [httpsRequest] resolves with the response body (the
    chunks concatenated) exactly when the response ended with a status
    code from 200 to 299; it rejects exactly when the request failed in
    transport or the response ended with a status code outside that
    range, in which case the error message gives the status code and
    the body; and it never settles exactly when the response was cut
    before its end. *)
Theorem C7_httpsRequest_resolves_iff_2xx
  (E : Env) (url : string) (options : Options) :
  (forall data,
      httpsRequest E url options = Ok data <->
      exists statusCode chunks,
        https_request E url options = Responded statusCode chunks
        /\ (200 <= statusCode < 300)%Z
        /\ data = String.concat "" chunks)
  /\ (throws (httpsRequest E url options) <->
      (exists e, https_request E url options = Failed e)
      \/ (exists statusCode chunks,
             https_request E url options = Responded statusCode chunks
             /\ ~ (200 <= statusCode < 300)%Z))
  /\ (forall statusCode chunks,
         https_request E url options = Responded statusCode chunks ->
         ~ (200 <= statusCode < 300)%Z ->
         httpsRequest E url options
         = Throw (Error ("HTTP " ++ string_of_Z statusCode ++ ": "
                         ++ String.concat "" chunks)))
  /\ (forall e, https_request E url options = Failed e ->
                httpsRequest E url options = Throw e)
  /\ (httpsRequest E url options = Never <->
      exists statusCode chunks,
        https_request E url options = Aborted statusCode chunks).
Proof.
  unfold httpsRequest.
  destruct (https_request E url options) as [e | st chunks | st chunks]; simpl.
  - repeat split; try discriminate.
    + intros [st [chunks [H _]]]. discriminate H.
    + intros _. left. exists e; reflexivity.
    + intros _. exists e; reflexivity.
    + intros e' H. injection H as <-. reflexivity.
    + intros [st [chunks H]]. discriminate H.
  - rewrite data_is_concat. simpl.
    destruct ((200 <=? st) && (st <? 300))%Z eqn:R.
    + apply andb_true_iff in R. destruct R as [R1 R2].
      apply Z.leb_le in R1. apply Z.ltb_lt in R2.
      repeat split; try discriminate.
      * intros H. injection H as <-. exists st, chunks. repeat split; assumption.
      * intros [st' [chunks' [H [_ ->]]]]. injection H as <- <-. reflexivity.
      * intros [e H]. discriminate H.
      * intros [[e H] | [st' [chunks' [H N]]]]; [discriminate H | ].
        injection H as <- <-. elim N. split; assumption.
      * intros st' chunks' H N. injection H as <- <-. elim N. split; assumption.
      * intros [st' [chunks' H]]. discriminate H.
    + assert (N : ~ (200 <= st < 300)%Z).
      { intros [R1 R2]. apply Z.leb_le in R1. apply Z.ltb_lt in R2.
        rewrite R1, R2 in R. discriminate R. }
      repeat split; try discriminate.
      * intros [st' [chunks' [H [I _]]]]. injection H as <- <-. elim (N I).
      * intros _. right. exists st, chunks. split; [reflexivity | exact N].
      * intros _. eexists; reflexivity.
      * intros st' chunks' H _. injection H as <- <-. reflexivity.
      * intros [st' [chunks' H]]. discriminate H.
  - repeat split; try discriminate.
    + intros [st' [chunks' [H _]]]. discriminate H.
    + intros [e H]. discriminate H.
    + intros [[e H] | [st' [chunks' [H _]]]]; discriminate H.
    + intros _. exists st, chunks. reflexivity.
Qed.

(** ** Selecting the items of a document *)

Lemma opt_get_defined (v : JsVal) (k : string) (x : JsVal) :
  opt_get v k = Ok x -> defined x = true -> get v k = Ok x.
Proof.
  unfold opt_get. destruct (defined v); [intros H _; exact H | ].
  intros H D. injection H as <-. discriminate D.
Qed.

Lemma rss_channel_item_path (parsed i : JsVal) :
  rss_channel_item parsed = Ok i -> truthy i = true ->
  (r <- get parsed "rss" ;; c <- get r "channel" ;; get c "item") = Ok i.
Proof.
  unfold rss_channel_item. intros H T.
  apply bind_Ok in H. destruct H as [r [Hr H]].
  apply bind_Ok in H. destruct H as [c [Hc H]].
  pose proof (truthy_defined i T) as Di.
  pose proof (opt_get_defined c "item" i H Di) as Gi.
  pose proof (opt_get_defined r "channel" c Hc (get_Ok_defined c "item" i Gi)) as Gc.
  rewrite Hr. simpl. rewrite Gc. simpl. exact Gi.
Qed.

Lemma feed_entry_path (parsed e : JsVal) :
  feed_entry parsed = Ok e -> truthy e = true ->
  (f <- get parsed "feed" ;; get f "entry") = Ok e.
Proof.
  unfold feed_entry. intros H T.
  apply bind_Ok in H. destruct H as [f [Hf H]].
  rewrite Hf. simpl.
  apply opt_get_defined; [exact H | apply truthy_defined, T].
Qed.

(** A truthy [rss.channel.item] decides: its nodes are the items. *)
Lemma select_items_rss (parsed i : JsVal) :
  rss_channel_item parsed = Ok i -> truthy i = true ->
  select_items parsed = Ok (as_array i).
Proof.
  intros H T. unfold select_items. rewrite H. simpl. rewrite T.
  pose proof (rss_channel_item_path parsed i H T) as P.
  destruct (get parsed "rss") as [r | | ]; simpl in *; try discriminate P.
  destruct (get r "channel") as [c | | ]; simpl in *; try discriminate P.
  rewrite P. reflexivity.
Qed.

Lemma select_items_feed (parsed i e : JsVal) :
  rss_channel_item parsed = Ok i -> truthy i = false ->
  feed_entry parsed = Ok e -> truthy e = true ->
  select_items parsed = Ok (as_array e).
Proof.
  intros Hi Ti He Te. unfold select_items. rewrite Hi. simpl. rewrite Ti.
  rewrite He. simpl. rewrite Te.
  pose proof (feed_entry_path parsed e He Te) as P.
  destruct (get parsed "feed") as [f | | ]; simpl in *; try discriminate P.
  rewrite P. reflexivity.
Qed.

Lemma select_items_neither (parsed i e : JsVal) :
  rss_channel_item parsed = Ok i -> truthy i = false ->
  feed_entry parsed = Ok e -> truthy e = false ->
  select_items parsed = Ok [].
Proof.
  intros Hi Ti He Te. unfold select_items. rewrite Hi. simpl. rewrite Ti.
  rewrite He. simpl. rewrite Te. reflexivity.
Qed.

(** Both shapes can always be inspected in the object that the parser
    returns. *)
Lemma shapes_total (props : list (string * Data)) :
  exists i e, rss_channel_item (Val (DObj props)) = Ok i
              /\ feed_entry (Val (DObj props)) = Ok e.
Proof.
  unfold rss_channel_item, feed_entry. simpl.
  destruct (opt_get_total
              (match own "rss" props with Some d => Val d | None => Undefined end)
              "channel") as [c Hc].
  rewrite Hc. simpl.
  destruct (opt_get_total c "item") as [i Hi].
  destruct (opt_get_total
              (match own "feed" props with Some d => Val d | None => Undefined end)
              "entry") as [e He].
  exists i, e. split; assumption.
Qed.

Lemma as_array_single (v : JsVal) : isArray v = false -> as_array v = [v].
Proof.
  destruct v as [ | d | f]; try reflexivity.
  destruct d; try reflexivity. discriminate.
Qed.

Lemma normalizedItems_from_length
  (now : nat -> string) (items : list JsVal) (i : nat) (out : list NewsItem) :
  normalizedItems_from now i items = Ok out ->
  List.length out = List.length items.
Proof.
  revert i out. induction items as [ | item rest IH]; intros i out; simpl.
  - intros H. injection H as <-. reflexivity.
  - intros H.
    apply bind_Ok in H. destruct H as [n [_ H]].
    apply bind_Ok in H. destruct H as [ns [Hns H]].
    injection H as <-. simpl. f_equal. exact (IH _ _ Hns).
Qed.

Lemma normalizedItems_from_total
  (now : nat -> string) (items : list JsVal) (i : nat) :
  Forall normalizable items ->
  exists out, normalizedItems_from now i items = Ok out.
Proof.
  intros F. revert i. induction F as [ | item rest [c Hc] _ IH]; intros i; simpl.
  - eexists; reflexivity.
  - destruct (normalize_item_total (now i) item c Hc) as [n Hn].
    destruct (IH (S i)) as [ns Hns].
    rewrite Hn, Hns. simpl. eexists; reflexivity.
Qed.

(** C9 is false as stated: an item element without content is read by
    the parser as the empty string, and a document whose only item is
    that node yields no item at all. *)
Lemma C9_counterexample :
  exists items,
    select_items (Val (DObj (rss_document (DStr "")))) = Ok items
    /\ List.length items <> 1%nat.
Proof. exists []. split; [reflexivity | discriminate]. Qed.

(** C9 (amended): a document with neither shape yields no items and
    no error; an item or entry field that is a single truthy node is
    taken as a sequence of that one node; an array of nodes is taken
    node by node; and the selected nodes, when each of them is
    normalizable, are normalized to a sequence of the same length
    (which is also the length of every sequence that the normalizer
    returns). *)
Theorem C9_items_selected_and_counted
  (props : list (string * Data)) (i e : JsVal)
  (Hi : rss_channel_item (Val (DObj props)) = Ok i)
  (He : feed_entry (Val (DObj props)) = Ok e) :
  (truthy i = false -> truthy e = false ->
   select_items (Val (DObj props)) = Ok [])
  /\ (truthy i = true -> isArray i = false ->
      select_items (Val (DObj props)) = Ok [i])
  /\ (truthy i = false -> truthy e = true -> isArray e = false ->
      select_items (Val (DObj props)) = Ok [e])
  /\ (forall elems, i = Val (DArr elems) ->
        select_items (Val (DObj props)) = Ok (map Val elems)
        /\ List.length (map Val elems) = List.length elems)
  /\ (forall elems, truthy i = false -> e = Val (DArr elems) ->
        select_items (Val (DObj props)) = Ok (map Val elems)
        /\ List.length (map Val elems) = List.length elems)
  /\ (forall now items,
        select_items (Val (DObj props)) = Ok items ->
        (Forall normalizable items ->
         exists out, normalizedItems now items = Ok out
                     /\ List.length out = List.length items)
        /\ (forall out, normalizedItems now items = Ok out ->
                        List.length out = List.length items)).
Proof.
  split; [intros Ti Te; exact (select_items_neither _ i e Hi Ti He Te) | ].
  split.
  { intros Ti Ai. rewrite (select_items_rss _ i Hi Ti).
    rewrite (as_array_single i Ai). reflexivity. }
  split.
  { intros Ti Te Ae. rewrite (select_items_feed _ i e Hi Ti He Te).
    rewrite (as_array_single e Ae). reflexivity. }
  split.
  { intros elems ->. split; [ | apply length_map].
    exact (select_items_rss _ _ Hi eq_refl). }
  split.
  { intros elems Ti ->. split; [ | apply length_map].
    exact (select_items_feed _ i _ Hi Ti He eq_refl). }
  intros now items _. split.
  - intros F. destruct (normalizedItems_from_total now items 0 F) as [out Ho].
    exists out. split; [exact Ho | ].
    exact (normalizedItems_from_length now items 0 out Ho).
  - intros out Ho. exact (normalizedItems_from_length now items 0 out Ho).
Qed.

Lemma C9_witness :
  let props := rss_document (DArr [ rss_item "A" "2024-01-01T00:00:00Z";
                                    rss_item "B" "2024-01-03T00:00:00Z" ]) in
  select_items (Val (DObj props))
  = Ok [ Val (rss_item "A" "2024-01-01T00:00:00Z");
         Val (rss_item "B" "2024-01-03T00:00:00Z") ].
Proof.
  intros props.
  destruct (C9_items_selected_and_counted props
              (Val (DArr [ rss_item "A" "2024-01-01T00:00:00Z";
                           rss_item "B" "2024-01-03T00:00:00Z" ]))
              Undefined eq_refl eq_refl) as [_ [_ [_ [H _]]]].
  destruct (H _ eq_refl) as [R _]. exact R.
Defined.

(** C10: when [rss.channel.item] and [feed.entry] are both present
    and truthy, the items are the nodes of [rss.channel.item] (its
    elements when it is an array, the node itself otherwise) and the
    entries are not used. *)
Theorem C10_item_dialect_first
  (parsed i e : JsVal)
  (Hi : rss_channel_item parsed = Ok i) (Ti : truthy i = true)
  (He : feed_entry parsed = Ok e) (Te : truthy e = true) :
  select_items parsed
  = Ok (match i with
        | Val (DArr elems) => map Val elems
        | _ => [i]
        end).
Proof. exact (select_items_rss parsed i Hi Ti). Qed.

Lemma C10_witness :
  select_items (Val (DObj both_shapes))
  = Ok [Val (rss_item "A" "2024-01-01T00:00:00Z")]
  /\ select_items
       (Val (DObj (rss_document (DArr [ rss_item "A" "2024-01-01T00:00:00Z";
                                        rss_item "B" "2024-01-03T00:00:00Z" ])
                   ++ atom_document (atom_entry "C" "2024-01-02T00:00:00Z"))))
     = Ok [ Val (rss_item "A" "2024-01-01T00:00:00Z");
            Val (rss_item "B" "2024-01-03T00:00:00Z") ].
Proof.
  split.
  - apply (C10_item_dialect_first (Val (DObj both_shapes))
             (Val (rss_item "A" "2024-01-01T00:00:00Z"))
             (Val (atom_entry "C" "2024-01-02T00:00:00Z")));
      reflexivity.
  - apply (C10_item_dialect_first _
             (Val (DArr [ rss_item "A" "2024-01-01T00:00:00Z";
                          rss_item "B" "2024-01-03T00:00:00Z" ]))
             (Val (atom_entry "C" "2024-01-02T00:00:00Z")));
      reflexivity.
Defined.

Lemma normalize_item_Ok_normalizable (now : string) (item : JsVal) (n : NewsItem) :
  normalize_item now item = Ok n -> normalizable item.
Proof.
  intros Hn.
  destruct (content_and_snippet now item n Hn) as [c [Hc _]].
  destruct (fields_of_normalized now item n Hn) as [_ [_ [_ [Hs _]]]].
  exists c. rewrite <- Hc. exact Hs.
Qed.

Lemma normalizedItems_from_all_normalizable
  (now : nat -> string) (items : list JsVal) (k : nat) (out : list NewsItem) :
  normalizedItems_from now k items = Ok out -> Forall normalizable items.
Proof.
  revert k out. induction items as [ | x rest IH]; intros k out H.
  - constructor.
  - simpl in H.
    apply bind_Ok in H. destruct H as [n [Hn H]].
    apply bind_Ok in H. destruct H as [ns [Hns _]].
    constructor.
    + exact (normalize_item_Ok_normalizable (now k) x n Hn).
    + exact (IH (S k) ns Hns).
Qed.

Lemma Exists_not_Forall {A : Type} (P : A -> Prop) (l : list A) :
  Exists (fun a => ~ P a) l -> ~ Forall P l.
Proof.
  induction 1 as [a l H | a l _ IH]; intros F;
    apply Forall_cons_iff in F; destruct F as [Fa Fl].
  - exact (H Fa).
  - exact (IH Fl).
Qed.

(** ** The loop over the feeds *)

Lemma source_items_after_nodes (E : Env) (seen : list string) (u : string) :
  source_items_after E seen u
  = (items <- source_nodes E u ;;
     normalizedItems (now_ISO E (u :: seen)) items).
Proof.
  unfold source_items_after, source_nodes.
  destruct (httpsRequest E u default_options); simpl; try reflexivity.
  destruct (XMLParser_parse E a); reflexivity.
Qed.

(** Whether the map returns or throws does not depend on the clock. *)
Lemma normalizedItems_Ok_iff (now : nat -> string) (items : list JsVal) :
  (exists out, normalizedItems now items = Ok out) <-> Forall normalizable items.
Proof.
  split.
  - intros [out H]. exact (normalizedItems_from_all_normalizable now items 0 out H).
  - intros F. exact (normalizedItems_from_total now items 0 F).
Qed.

Lemma normalizedItems_throws_iff (now : nat -> string) (items : list JsVal) :
  throws (normalizedItems now items) <-> ~ Forall normalizable items.
Proof.
  split.
  - intros [e H] F. apply (normalizedItems_Ok_iff now) in F.
    destruct F as [out F]. rewrite F in H. discriminate H.
  - intros N. destruct (normalizedItems now items) as [out | e | ] eqn:H.
    + elim N. apply (normalizedItems_Ok_iff now). exists out; exact H.
    + exists e; reflexivity.
    + elim (normalizedItems_from_ends now items 0 H).
Qed.

(** Whether a source hangs or fails does not depend on what was
    processed before it. *)
Lemma source_items_after_Never (E : Env) (seen : list string) (u : string) :
  source_items_after E seen u = Never <-> hangs E u.
Proof.
  unfold hangs, source_items. rewrite !source_items_after_nodes.
  destruct (source_nodes E u) as [items | e | ]; simpl.
  - split; intros H; elim (normalizedItems_from_ends _ items 0 H).
  - split; discriminate.
  - split; reflexivity.
Qed.

Lemma source_items_after_throws (E : Env) (seen : list string) (u : string) :
  throws (source_items_after E seen u) <-> throws (source_items E u).
Proof.
  unfold source_items. rewrite !source_items_after_nodes.
  destruct (source_nodes E u) as [items | e | ]; simpl.
  - rewrite !normalizedItems_throws_iff. reflexivity.
  - reflexivity.
  - reflexivity.
Qed.

Lemma try_feed_source_items
  (E : Env) (seen : list string) (u : string) (acc : list NewsItem) :
  try_feed E seen u acc
  = (l <- source_items_after E seen u ;; Ok (acc ++ l)%list).
Proof.
  unfold try_feed, source_items_after.
  destruct (httpsRequest E u default_options) as [xml | e | ]; simpl;
    try reflexivity.
  destruct (XMLParser_parse E xml) as [parsed | e | ]; simpl; try reflexivity.
  destruct (select_items (Val (DObj parsed))) as [items | e | ]; simpl;
    reflexivity.
Qed.

(** One turn of the loop appends the contribution of the source,
    unless the source hangs. *)
Lemma try_catch_feed
  (E : Env) (seen : list string) (u : string) (acc : list NewsItem) :
  ~ hangs E u ->
  try_catch (try_feed E seen u acc) (fun _ => Ok acc)
  = Ok (acc ++ contributed_after E seen u)%list.
Proof.
  intros N. rewrite try_feed_source_items. unfold contributed_after.
  destruct (source_items_after E seen u) as [l | e | ] eqn:S; simpl.
  - reflexivity.
  - rewrite app_nil_r. reflexivity.
  - elim N. apply (source_items_after_Never E seen u), S.
Qed.

Lemma try_catch_feed_hangs
  (E : Env) (seen : list string) (u : string) (acc : list NewsItem) :
  hangs E u ->
  try_catch (try_feed E seen u acc) (fun _ => Ok acc) = Never.
Proof.
  intros H. apply (source_items_after_Never E seen u) in H.
  rewrite try_feed_source_items, H. reflexivity.
Qed.

Lemma for_feeds_collected
  (E : Env) (feeds seen : list string) (acc : list NewsItem) :
  Forall (fun u => ~ hangs E u) feeds ->
  for_feeds E seen feeds acc = Ok (acc ++ collected_after E seen feeds)%list.
Proof.
  intros F. revert seen acc.
  induction F as [ | u rest Hu _ IH]; intros seen acc; simpl.
  - rewrite app_nil_r. reflexivity.
  - rewrite (try_catch_feed E seen u acc Hu). simpl.
    rewrite IH, <- app_assoc. reflexivity.
Qed.

(** A source that hangs keeps the loop from ever finishing. *)
Lemma for_feeds_hangs
  (E : Env) (feeds seen : list string) (acc : list NewsItem) :
  Exists (hangs E) feeds -> for_feeds E seen feeds acc = Never.
Proof.
  intros X. revert seen acc.
  induction X as [u rest H | u rest _ IH]; intros seen acc; simpl.
  - rewrite (try_catch_feed_hangs E seen u acc H). reflexivity.
  - rewrite try_feed_source_items.
    destruct (source_items_after E seen u) as [l | e | ]; simpl;
      try apply IH; reflexivity.
Qed.

Lemma fetchRSSFeeds_eq (E : Env) (feeds : list string) :
  Forall (fun u => ~ hangs E u) feeds ->
  fetchRSSFeeds E feeds
  = Array_sort (sort_order E) (compareFn E) (collected E feeds).
Proof.
  intros F. unfold fetchRSSFeeds, collected.
  rewrite (for_feeds_collected E feeds [] [] F). reflexivity.
Qed.

Lemma fetch_failure_contributes_nothing
  (E : Env) (seen : list string) (u : string) :
  throws (httpsRequest E u default_options) -> contributed_after E seen u = [].
Proof.
  intros [e H]. unfold contributed_after, source_items_after.
  rewrite H. reflexivity.
Qed.

Lemma parse_failure_contributes_nothing
  (E : Env) (seen : list string) (u xmlData : string) :
  httpsRequest E u default_options = Ok xmlData ->
  throws (XMLParser_parse E xmlData) -> contributed_after E seen u = [].
Proof.
  intros H [e P]. unfold contributed_after, source_items_after.
  rewrite H. simpl. rewrite P. reflexivity.
Qed.

(** ** Sorting *)

Section Sorting.
Context {A : Type}.
Variable cmp : A -> A -> option Z.

Lemma sort_insert_perm (x : A) (l : list A) :
  Permutation (sort_insert cmp x l) (x :: l).
Proof.
  induction l as [ | y l IH]; simpl.
  - apply Permutation_refl.
  - destruct (placed_after cmp x y).
    + apply Permutation_trans with (y :: x :: l).
      * apply perm_skip, IH.
      * apply perm_swap.
    + apply Permutation_refl.
Qed.

Lemma stable_sort_perm (l : list A) : Permutation (stable_sort cmp l) l.
Proof.
  induction l as [ | x l IH]; simpl.
  - apply perm_nil.
  - apply Permutation_trans with (x :: stable_sort cmp l).
    + apply sort_insert_perm.
    + apply perm_skip, IH.
Qed.

Lemma stable_sort_nil_inv (l : list A) : stable_sort cmp l = [] -> l = [].
Proof.
  intros H. apply Permutation_nil. rewrite <- H.
  apply stable_sort_perm.
Qed.
End Sorting.

Section ByDate.
Variable E : Env.







End ByDate.






(** ** The sort of the engine *)

Lemma first_failure_Ok {A B : Type} (f : A -> Result B) (l : list A) :
  first_failure f l = Ok tt <-> forall a, In a l -> exists b, f a = Ok b.
Proof.
  induction l as [ | x l IH]; simpl.
  - split; [intros _ a [] | reflexivity].
  - split.
    + intros H. apply bind_Ok in H. destruct H as [b [Hb H]].
      intros a [<- | Ha]; [exists b; exact Hb | exact (proj1 IH H a Ha)].
    + intros H. destruct (H x (or_introl eq_refl)) as [b Hb]. rewrite Hb. simpl.
      apply IH. intros a Ha. apply H. right; exact Ha.
Qed.

Lemma flat_map_nth_seq {A : Type} (p l : list A) :
  flat_map (fun i => match nth_error (p ++ l) i with
                     | Some x => [x]
                     | None => []
                     end) (seq (List.length p) (List.length l)) = l.
Proof.
  revert p. induction l as [ | x l IH]; intros p; simpl; [reflexivity | ].
  rewrite nth_error_app2, Nat.sub_diag by lia. simpl. f_equal.
  specialize (IH (p ++ [x])%list).
  rewrite <- app_assoc, length_app, Nat.add_1_r in IH. exact IH.
Qed.

Lemma arrange_perm {A : Type} (idx : list nat) (l : list A) :
  Permutation (arrange idx l) l.
Proof.
  unfold arrange. destruct (is_arrangement idx (List.length l)) eqn:I;
    [ | apply Permutation_refl].
  apply andb_true_iff in I. destruct I as [L F].
  apply Nat.eqb_eq in L. rewrite forallb_forall in F.
  assert (P : Permutation (seq 0 (List.length l)) idx).
  { apply NoDup_Permutation_bis.
    - apply seq_NoDup.
    - rewrite length_seq. lia.
    - intros i Hi. specialize (F i Hi). apply existsb_exists in F.
      destruct F as [j [Hj E]]. apply Nat.eqb_eq in E. subst j. exact Hj. }
  pose proof (flat_map_nth_seq [] l) as Q. simpl in Q.
  eapply Permutation_trans;
    [apply Permutation_flat_map, Permutation_sym, P | ].
  rewrite Q. apply Permutation_refl.
Qed.

Section EngineSort.
Context {A : Type}.
Variables (order : list A -> list nat) (cmp : A -> A -> Result (option Z)).

Lemma Array_sort_short (l : list A) :
  (List.length l <= 1)%nat -> Array_sort order cmp l = Ok l.
Proof.
  intros H. unfold Array_sort.
  destruct (Nat.leb_spec (List.length l) 1); [reflexivity | lia].
Qed.

Lemma Array_sort_perm (l l' : list A) :
  Array_sort order cmp l = Ok l' -> Permutation l' l.
Proof.
  unfold Array_sort. destruct (List.length l <=? 1)%nat.
  - intros H. injection H as <-. apply Permutation_refl.
  - intros H. apply bind_Ok in H. destruct H as [_ [_ H]]. injection H as <-.
    destruct (consistent (value_of cmp) l);
      [apply stable_sort_perm | apply arrange_perm].
Qed.

Lemma comparisons_Ok (l : list A) :
  (forall a b, In a l -> In b l -> exists v, cmp a b = Ok v) ->
  first_failure (fun p => cmp (fst p) (snd p)) (list_prod l l) = Ok tt.
Proof.
  intros H. apply first_failure_Ok. intros [a b] Hab.
  apply in_prod_iff in Hab. destruct Hab as [Ha Hb]. exact (H a b Ha Hb).
Qed.

Lemma Array_sort_returns (l : list A) :
  (forall a b, In a l -> In b l -> exists v, cmp a b = Ok v) ->
  exists l', Array_sort order cmp l = Ok l'.
Proof.
  intros H. unfold Array_sort. destruct (List.length l <=? 1)%nat;
    [eexists; reflexivity | ].
  rewrite (comparisons_Ok l H). simpl. eexists; reflexivity.
Qed.
End EngineSort.

Lemma sort_insert_ext {A : Type} (c c' : A -> A -> option Z) (x : A) (l : list A) :
  (forall b, In b l -> c x b = c' x b) ->
  sort_insert c x l = sort_insert c' x l.
Proof.
  induction l as [ | y l IH]; intros H; simpl; [reflexivity | ].
  unfold placed_after. rewrite (H y (or_introl eq_refl)).
  rewrite IH by (intros b Hb; apply H; right; exact Hb). reflexivity.
Qed.

Lemma stable_sort_ext {A : Type} (c c' : A -> A -> option Z) (l : list A) :
  (forall a b, In a l -> In b l -> c a b = c' a b) ->
  stable_sort c l = stable_sort c' l.
Proof.
  induction l as [ | x l IH]; intros H; simpl; [reflexivity | ].
  rewrite IH by (intros a b Ha Hb; apply H; right; assumption).
  apply sort_insert_ext. intros b Hb. apply H; [left; reflexivity | right].
  exact (Permutation_in b (stable_sort_perm c' l) Hb).
Qed.

Ltac sgn_case :=
  repeat match goal with
         | |- context [Z.eqb ?a ?b] => destruct (Z.eqb_spec a b)
         | |- context [Z.ltb ?a ?b] => destruct (Z.ltb_spec a b)
         end;
  simpl; try reflexivity; exfalso; lia.

(** A comparator that orders by a key is consistent. *)
Lemma keyed_consistent {A : Type} (c : A -> A -> option Z) (key : A -> Z)
  (l : list A) :
  (forall a b, In a l -> In b l -> sgn (c a b) = Z.sgn (key b - key a)) ->
  consistent c l = true.
Proof.
  intros H. unfold consistent.
  apply forallb_forall. intros x Hx.
  apply andb_true_iff. split.
  { rewrite (H x x Hx Hx), Z.sub_diag. reflexivity. }
  apply forallb_forall. intros y Hy.
  rewrite (H x y Hx Hy), (H y x Hy Hx).
  pose proof (Z.sgn_spec (key y - key x)) as Sxy.
  pose proof (Z.sgn_spec (key x - key y)) as Syx.
  apply andb_true_iff. split; [sgn_case | ].
  apply forallb_forall. intros z Hz.
  rewrite (H y z Hy Hz), (H x z Hx Hz).
  pose proof (Z.sgn_spec (key z - key y)) as Syz.
  pose proof (Z.sgn_spec (key z - key x)) as Sxz.
  apply andb_true_iff. split; [apply andb_true_iff; split | ]; sgn_case.
Qed.

(** With a comparator that returns on the elements of the array and
    orders them by a key, the sort gives the stable sorted
    arrangement. *)
Lemma Array_sort_keyed {A : Type} (order : list A -> list nat)
  (cmp : A -> A -> Result (option Z)) (c : A -> A -> option Z) (key : A -> Z)
  (l : list A) :
  (forall a b, In a l -> In b l -> cmp a b = Ok (c a b)) ->
  (forall a b, In a l -> In b l -> sgn (c a b) = Z.sgn (key b - key a)) ->
  Array_sort order cmp l = Ok (stable_sort c l).
Proof.
  intros Hc Hk. unfold Array_sort.
  destruct (Nat.leb_spec (List.length l) 1) as [L | L].
  - destruct l as [ | x [ | y l]]; simpl in *; try reflexivity. lia.
  - rewrite comparisons_Ok by (intros a b Ha Hb; rewrite (Hc a b Ha Hb); eexists; reflexivity).
    simpl.
    assert (V : forall a b, In a l -> In b l -> value_of cmp a b = c a b).
    { intros a b Ha Hb. unfold value_of. rewrite (Hc a b Ha Hb). reflexivity. }
    rewrite (keyed_consistent (value_of cmp) key l)
      by (intros a b Ha Hb; rewrite (V a b Ha Hb); exact (Hk a b Ha Hb)).
    rewrite (stable_sort_ext _ c l V). reflexivity.
Qed.

(** ** The aggregate *)

Lemma compareFn_built (E : Env) (a b : NewsItem) :
  date_built E a -> date_built E b ->
  compareFn E a b = Ok (compare_times E a b).
Proof.
  intros [ta Ha] [tb Hb]. unfold compareFn, compare_times, timestamp.
  rewrite Ha, Hb. reflexivity.
Qed.

Lemma valid_date_built (E : Env) (n : NewsItem) :
  valid_date E n -> date_built E n.
Proof.
  unfold valid_date, date_built, timestamp.
  destruct (Date_new E (pubDate n)) as [t | e | ]; intros H.
  - exists t; reflexivity.
  - elim H; reflexivity.
  - elim H; reflexivity.
Qed.

Lemma compare_times_valid (E : Env) (a b : NewsItem) :
  valid_date E a -> valid_date E b ->
  sgn (compare_times E a b) = Z.sgn (time_key E b - time_key E a).
Proof.
  unfold valid_date, compare_times, time_key, Date_minus.
  destruct (timestamp E a), (timestamp E b); intros Ha Hb;
    try (elim Ha; reflexivity); try (elim Hb; reflexivity).
  reflexivity.
Qed.

Lemma compare_times_invalid (E : Env) (a b : NewsItem) :
  timestamp E a = None ->
  sgn (compare_times E a b) = Z.sgn (time_key E b - time_key E a)
  \/ timestamp E b <> None.
Proof.
  unfold compare_times, time_key, Date_minus. intros ->.
  destruct (timestamp E b); [right; discriminate | left; reflexivity].
Qed.

Lemma hangs_or_not (E : Env) (u : string) : hangs E u \/ ~ hangs E u.
Proof.
  unfold hangs. destruct (source_items E u);
    [right; discriminate | right; discriminate | left; reflexivity].
Qed.

(** When [fetchRSSFeeds] returns, no source hangs. *)
Lemma fetch_Ok_no_hang (E : Env) (feeds : list string) (out : list NewsItem) :
  fetchRSSFeeds E feeds = Ok out -> Forall (fun u => ~ hangs E u) feeds.
Proof.
  intros H.
  assert (D : Forall (fun u => ~ hangs E u) feeds \/ Exists (hangs E) feeds).
  { clear H. induction feeds as [ | u rest [IH | IH]].
    - left; constructor.
    - destruct (hangs_or_not E u) as [Hu | Hu].
      + right. apply Exists_cons_hd, Hu.
      + left. constructor; assumption.
    - right. apply Exists_cons_tl, IH. }
  destruct D as [D | D]; [exact D | ].
  unfold fetchRSSFeeds in H. rewrite (for_feeds_hangs E feeds [] [] D) in H.
  discriminate H.
Qed.

Lemma fetch_Ok_perm (E : Env) (feeds : list string) (out : list NewsItem) :
  fetchRSSFeeds E feeds = Ok out -> Permutation out (collected E feeds).
Proof.
  intros H. pose proof (fetch_Ok_no_hang E feeds out H) as F.
  rewrite (fetchRSSFeeds_eq E feeds F) in H.
  exact (Array_sort_perm _ _ _ _ H).
Qed.

(** With valid dates only, what is returned is the stable sorted
    arrangement of what was collected. *)
Lemma fetch_valid_stable_sort (E : Env) (feeds : list string) :
  Forall (fun u => ~ hangs E u) feeds ->
  Forall (valid_date E) (collected E feeds) ->
  fetchRSSFeeds E feeds
  = Ok (stable_sort (compare_times E) (collected E feeds)).
Proof.
  intros F V. rewrite (fetchRSSFeeds_eq E feeds F).
  rewrite Forall_forall in V.
  apply Array_sort_keyed with (key := time_key E).
  - intros a b Ha Hb. apply compareFn_built; apply valid_date_built, V; assumption.
  - intros a b Ha Hb. apply compare_times_valid; apply V; assumption.
Qed.

(** C3 is false as stated: when the response of one source is cut
    before its end, the loop waits for it for ever and [fetchRSSFeeds]
    never returns, although the other source was processed to the end;
    and when the date of a collected item is an object with an own
    property [toString], the sort, which is outside the [try], throws. *)
Lemma C3_counterexample :
  source_items first_is_cut url_two
  = Ok [plain_news "Y" "2024-01-01T00:00:00Z"]
  /\ httpsRequest first_is_cut url_one default_options = Never
  /\ fetchRSSFeeds first_is_cut [url_two; url_one] = Never
  /\ throws (fetchRSSFeeds odd_date [url_one]).
Proof.
  split; [reflexivity | ]. split; [reflexivity | ]. split; [reflexivity | ].
  eexists; reflexivity.
Qed.

(** C3 (amended): when no source hangs and the date of every collected
    item can be built, [fetchRSSFeeds] returns, and what it returns is
    a rearrangement of the items of the sources that were processed to
    the end; a source whose request fails (a transport error or a
    status code outside 2xx) or whose body the parser rejects
    contributes nothing.  For three sources of which the second answers
    500 the result is made of the items of the first and the third. *)
Theorem C3_failed_sources_contribute_nothing
  (E : Env) (rssFeeds : list string)
  (Hsettle : Forall (fun u => ~ hangs E u) rssFeeds)
  (Hdates : Forall (date_built E) (collected E rssFeeds)) :
  exists out,
    fetchRSSFeeds E rssFeeds = Ok out
    /\ Permutation out (collected E rssFeeds)
    /\ (forall seen u, throws (httpsRequest E u default_options) ->
                       contributed_after E seen u = [])
    /\ (forall seen u xmlData,
           httpsRequest E u default_options = Ok xmlData ->
           throws (XMLParser_parse E xmlData) -> contributed_after E seen u = [])
    /\ (forall seen u l, source_items_after E seen u = Ok l ->
                         contributed_after E seen u = l)
    /\ (forall u1 u2 u3 chunks l1 l3,
           rssFeeds = [u1; u2; u3] ->
           https_request E u2 default_options = Responded 500 chunks ->
           source_items_after E [] u1 = Ok l1 ->
           source_items_after E [u2; u1] u3 = Ok l3 ->
           Permutation out (l1 ++ l3)).
Proof.
  rewrite Forall_forall in Hdates.
  destruct (Array_sort_returns (sort_order E) (compareFn E) (collected E rssFeeds))
    as [out Hout].
  { intros a b Ha Hb. rewrite (compareFn_built E a b (Hdates a Ha) (Hdates b Hb)).
    eexists; reflexivity. }
  exists out.
  assert (F : fetchRSSFeeds E rssFeeds = Ok out)
    by (rewrite (fetchRSSFeeds_eq E rssFeeds Hsettle); exact Hout).
  split; [exact F | ].
  split; [exact (fetch_Ok_perm E rssFeeds out F) | ].
  split; [apply fetch_failure_contributes_nothing | ].
  split; [apply parse_failure_contributes_nothing | ].
  split.
  { intros seen u l H. unfold contributed_after. rewrite H. reflexivity. }
  intros u1 u2 u3 chunks l1 l3 R H2 H1 H3.
  pose proof (fetch_Ok_perm E rssFeeds out F) as P.
  rewrite R in P. unfold collected in P. simpl in P.
  assert (C2 : contributed_after E [u1] u2 = []).
  { apply fetch_failure_contributes_nothing.
    unfold httpsRequest. rewrite H2. simpl. eexists; reflexivity. }
  unfold contributed_after in P at 1 3. rewrite H1, H3, C2, app_nil_r in P.
  exact P.
Qed.

Lemma C3_witness :
  exists out,
    fetchRSSFeeds second_fails [url_one; url_two; url_three] = Ok out
    /\ Permutation out [ plain_news "A" "2024-01-01T00:00:00Z";
                         plain_news "B" "2024-01-03T00:00:00Z";
                         plain_news "C" "2024-01-02T00:00:00Z" ].
Proof.
  destruct (C3_failed_sources_contribute_nothing second_fails
              [url_one; url_two; url_three]) as [out [H [P _]]].
  - repeat constructor; intros N; discriminate N.
  - repeat constructor; eexists; reflexivity.
  - exists out. split; [exact H | exact P].
Defined.




(** ** [main] *)

Lemma throws_not_hangs (E : Env) (u : string) :
  throws (source_items E u) -> ~ hangs E u.
Proof. intros [e H] N. unfold hangs in N. rewrite N in H. discriminate H. Qed.

Lemma collected_after_nothing (E : Env) (rssFeeds seen : list string) :
  (forall u, In u rssFeeds -> throws (source_items E u)) ->
  collected_after E seen rssFeeds = [].
Proof.
  revert seen. induction rssFeeds as [ | u rest IH]; intros seen H; simpl;
    [reflexivity | ].
  rewrite IH by (intros v Hv; apply H; right; exact Hv).
  destruct (proj2 (source_items_after_throws E seen u) (H u (or_introl eq_refl)))
    as [err Hu].
  unfold contributed_after. rewrite Hu. reflexivity.
Qed.

Lemma fetchRSSFeeds_nothing (E : Env) (rssFeeds : list string) :
  (forall u, In u rssFeeds -> throws (source_items E u)) ->
  fetchRSSFeeds E rssFeeds = Ok [].
Proof.
  intros H. rewrite fetchRSSFeeds_eq.
  - unfold collected. rewrite (collected_after_nothing E rssFeeds [] H).
    reflexivity.
  - apply Forall_forall. intros u Hu. apply throws_not_hangs, H, Hu.
Qed.

(** C8: when there are no sources, or every source fails, or the
    aggregate is empty for any other reason, [main] returns normally
    and has called neither [processWithAI] nor [sendToTelegram]. *)
Theorem C8_no_items_no_calls (E : Env) (rssFeeds : list string)
  (H : rssFeeds = []
       \/ (forall u, In u rssFeeds -> throws (source_items E u))
       \/ fetchRSSFeeds E rssFeeds = Ok []) :
  fetchRSSFeeds E rssFeeds = Ok []
  /\ main E rssFeeds = {| exit := Returned; calls := [] |}.
Proof.
  assert (F : fetchRSSFeeds E rssFeeds = Ok []).
  { destruct H as [-> | [H | H]].
    - reflexivity.
    - apply fetchRSSFeeds_nothing, H.
    - exact H. }
  split; [exact F | ].
  unfold main, main_body. rewrite F. reflexivity.
Qed.

Lemma C8_witness :
  fetchRSSFeeds (world [] [] []) CONFIG_rssFeeds = Ok []
  /\ main (world [] [] []) CONFIG_rssFeeds = {| exit := Returned; calls := [] |}.
Proof.
  apply (C8_no_items_no_calls (world [] [] []) CONFIG_rssFeeds).
  right; right. reflexivity.
Defined.

(** With at least one item, [main] does call the language-model
    service, with the first 20 items. *)
Lemma main_calls_processWithAI
  (E : Env) (rssFeeds : list string) (n : NewsItem) (rest : list NewsItem) :
  fetchRSSFeeds E rssFeeds = Ok (n :: rest) ->
  exists later,
    calls (main E rssFeeds)
    = Call_processWithAI (firstn 20 (n :: rest)) :: later.
Proof.
  intros F. unfold main, main_body. rewrite F.
  unfold tbind, lift, invoke, ret. cbv beta iota.
  replace (Z.eqb (Z.of_nat (List.length (n :: rest))) 0) with false
    by (symmetry; apply Z.eqb_neq; simpl List.length; lia).
  generalize (firstn 20 (n :: rest)). intros top.
  destruct (processWithAI E top) as [msg | err | ].
  - destruct (sendToTelegram E msg); cbn; eexists; reflexivity.
  - cbn. eexists; reflexivity.
  - cbn. eexists; reflexivity.
Qed.

(** ** Scenarios *)

Example item_dialect_scenario :
  normalize_item "2025-06-01T12:00:00Z"
    (Val (rss_item "A" "2024-01-01T00:00:00Z"))
  = Ok (plain_news "A" "2024-01-01T00:00:00Z").
Proof. reflexivity. Qed.

(** A feed with one entry whose summary carries an attribute is lost
    as a whole. *)
Example feed_lost_by_one_entry :
  let E := world
             [ (url_three, Responded 200 [body_three]) ]
             [ (body_three,
                atom_document
                  (DArr [ atom_entry "C" "2024-01-02T00:00:00Z";
                          DObj [("title", DStr "D");
                                ("summary", DObj [("#text", DStr "text");
                                                  ("@_type", DStr "html")])] ])) ]
             []
  in fetchRSSFeeds E [url_three] = Ok [].
Proof. reflexivity. Qed.

Example main_runs_to_the_end :
  main second_fails [url_one; url_two; url_three]
  = {| exit := Returned;
       calls := [ Call_processWithAI
                    [ plain_news "B" "2024-01-03T00:00:00Z";
                      plain_news "C" "2024-01-02T00:00:00Z";
                      plain_news "A" "2024-01-01T00:00:00Z" ];
                  Call_sendToTelegram (str "digest") ] |}.
Proof. reflexivity. Qed.

(** When the language-model service cannot be reached, [main] stops
    after that call with exit code 1. *)
Example main_exits_on_service_failure :
  main one_bad_date [url_one; url_two]
  = {| exit := ProcessExit 1;
       calls := [ Call_processWithAI
                    [ plain_news "X" "yesterday";
                      plain_news "Y" "2024-01-01T00:00:00Z" ] ] |}.
Proof. reflexivity. Qed.

(* ================================================================== *)
(** * Further properties *)

(** ** The normalizer, node by node *)

(** X1: the normalizer returns on a node exactly when the node's
    [description || summary || ''] is a string; on every other node
    (a number or an object as description, a [null] node) it throws. *)
Theorem normalize_item_returns_iff (now : string) (item : JsVal) :
  (exists n, normalize_item now item = Ok n) <-> normalizable item.
Proof.
  split.
  - intros [n Hn].
    destruct (content_and_snippet now item n Hn) as [c [Hc _]].
    destruct (fields_of_normalized now item n Hn) as [_ [_ [_ [Hs _]]]].
    exists c. rewrite <- Hc. exact Hs.
  - intros [c Hc]. exact (normalize_item_total now item c Hc).
Qed.

Lemma get_object (k : string) (props : list (string * Data)) :
  get (Val (DObj props)) k = Ok (prop k props).
Proof. reflexivity. Qed.

Lemma or_value_Ok (a b d v : JsVal) :
  (Ok a ||| Ok b ||| Ok d) = Ok v -> v = or_value a (or_value b d).
Proof.
  unfold or_else, or_value. simpl.
  destruct (truthy a) eqn:Ta; simpl.
  - rewrite Ta. intros H. injection H as <-. reflexivity.
  - destruct (truthy b); intros H; injection H as <-; reflexivity.
Qed.

Lemma opt_get_nested (v : JsVal) (k : string) :
  opt_get v k = Ok (nested v k).
Proof.
  unfold nested. destruct (opt_get_total v k) as [x H]. rewrite H. reflexivity.
Qed.

(** X2: the fields of the item made from an object node.  Each field
    is the first truthy value among its sources, else its default;
    [title] and [link] have [item.title] and [item.link] as their only
    source. *)
Theorem normalized_fields_table
  (now : string) (props : list (string * Data)) (n : NewsItem)
  (Hn : normalize_item now (Val (DObj props)) = Ok n) :
  title n = or_value (prop "title" props) (str "No title")
  /\ link n = or_value (prop "link" props) (str "")
  /\ pubDate n = or_value (prop "pubDate" props)
                   (or_value (prop "published" props) (str now))
  /\ content n = or_value (prop "description" props)
                   (or_value (prop "summary" props) (str ""))
  /\ creator n = or_value (prop "dc:creator" props)
                   (or_value (nested (prop "author" props) "name")
                             (str "Unknown")).
Proof.
  destruct (fields_of_normalized now _ n Hn) as [_ [_ [Hp [Hc [_ Ha]]]]].
  pose proof (title_resolution now _ n Hn) as Ht.
  pose proof (link_resolution now _ n Hn) as Hl.
  unfold content_source in Hc.
  rewrite !get_object in *.
  repeat split.
  - unfold or_value. destruct Ht as [[G T] | Ht].
    + injection G as G. rewrite G, T. reflexivity.
    + rewrite Ht. destruct (truthy (prop "title" props)) eqn:T; [ | reflexivity].
      destruct (fields_of_normalized now _ n Hn) as [H _].
      rewrite !get_object in H. unfold or_else in H. simpl in H.
      rewrite T in H. simpl in H. rewrite T in H. injection H as H.
      rewrite Ht in H. symmetry. exact H.
  - unfold or_value. destruct Hl as [[G T] | Hl].
    + injection G as G. rewrite G, T. reflexivity.
    + rewrite Hl. destruct (truthy (prop "link" props)) eqn:T; [ | reflexivity].
      destruct (fields_of_normalized now _ n Hn) as [_ [H _]].
      rewrite !get_object in H. unfold or_else in H. simpl in H.
      rewrite T in H. simpl in H. rewrite T in H. injection H as H.
      rewrite Hl in H. symmetry. exact H.
  - apply or_value_Ok, Hp.
  - apply or_value_Ok, Hc.
  - simpl bind in Ha. rewrite opt_get_nested in Ha. apply or_value_Ok, Ha.
Qed.

Lemma normalized_fields_table_witness :
  let props := [("title", DStr ""); ("published", DStr "2024-01-02T00:00:00Z");
                ("summary", DStr "s"); ("author", DObj [("name", DStr "Bob")])] in
  let n := {| title := str "No title"; link := str "";
              pubDate := str "2024-01-02T00:00:00Z";
              content := str "s"; contentSnippet := str "s";
              creator := str "Bob" |} in
  normalize_item "2025-06-01T12:00:00Z" (Val (DObj props)) = Ok n
  /\ title n = or_value (prop "title" props) (str "No title")
  /\ link n = or_value (prop "link" props) (str "")
  /\ pubDate n = or_value (prop "pubDate" props)
                   (or_value (prop "published" props)
                             (str "2025-06-01T12:00:00Z"))
  /\ content n = or_value (prop "description" props)
                   (or_value (prop "summary" props) (str ""))
  /\ creator n = or_value (prop "dc:creator" props)
                   (or_value (nested (prop "author" props) "name")
                             (str "Unknown")).
Proof.
  intros props n. split; [reflexivity | ].
  apply (normalized_fields_table "2025-06-01T12:00:00Z" props n). reflexivity.
Defined.

(** X3: a node that is not an object but a string, a number, a
    boolean or an array (an item element that holds text only) is
    normalized to the item of defaults; for a string the link is the
    function [String.prototype.link], for the others the empty
    string. *)
Theorem text_only_node_gets_defaults (now : string) :
  (forall s, normalize_item now (str s) = Ok (default_news now (Builtin "link")))
  /\ (forall x, normalize_item now (Val (DNum x)) = Ok (default_news now (str "")))
  /\ (forall b, normalize_item now (Val (DBool b)) = Ok (default_news now (str "")))
  /\ (forall l, normalize_item now (Val (DArr l)) = Ok (default_news now (str ""))).
Proof. repeat split; intros; reflexivity. Qed.

(** ** The map over the nodes of one feed *)

Lemma normalizedItems_from_nth
  (now : nat -> string) (items : list JsVal) (k : nat) (out : list NewsItem) :
  normalizedItems_from now k items = Ok out ->
  forall i item, nth_error items i = Some item ->
    exists n, nth_error out i = Some n
              /\ normalize_item (now (k + i)%nat) item = Ok n.
Proof.
  revert k out. induction items as [ | x rest IH]; intros k out H i item Hi.
  - destruct i; discriminate Hi.
  - simpl in H.
    apply bind_Ok in H. destruct H as [n [Hn H]].
    apply bind_Ok in H. destruct H as [ns [Hns H]].
    injection H as <-.
    destruct i as [ | i]; simpl in Hi.
    + injection Hi as <-. exists n. rewrite Nat.add_0_r. split; [reflexivity | exact Hn].
    + destruct (IH (S k) ns Hns i item Hi) as [m [Hm Hi']].
      exists m. split; [exact Hm | ].
      rewrite <- plus_n_Sm. exact Hi'.
Qed.

(** X4: the map keeps the order and the positions: when it returns,
    the item at each index is the normalization of the node at that
    index (with the clock reading of that index), and there are as
    many items as nodes. *)
Theorem normalizedItems_elementwise
  (now : nat -> string) (items : list JsVal) (out : list NewsItem)
  (H : normalizedItems now items = Ok out) :
  List.length out = List.length items
  /\ forall i item, nth_error items i = Some item ->
       exists n, nth_error out i = Some n
                 /\ normalize_item (now i) item = Ok n.
Proof.
  split.
  - exact (normalizedItems_from_length now items 0 out H).
  - intros i item Hi.
    exact (normalizedItems_from_nth now items 0 out H i item Hi).
Qed.

Lemma normalizedItems_elementwise_witness :
  let now := fun _ : nat => "2025-06-01T12:00:00Z" in
  let items := [ Val (rss_item "A" "2024-01-01T00:00:00Z");
                 Val (rss_item "B" "2024-01-03T00:00:00Z") ] in
  let out := [ plain_news "A" "2024-01-01T00:00:00Z";
               plain_news "B" "2024-01-03T00:00:00Z" ] in
  normalizedItems now items = Ok out
  /\ List.length out = List.length items
  /\ forall i item, nth_error items i = Some item ->
       exists n, nth_error out i = Some n
                 /\ normalize_item (now i) item = Ok n.
Proof.
  intros now items out. split; [reflexivity | ].
  apply (normalizedItems_elementwise now items out). reflexivity.
Defined.

(** X5: a feed is taken whole or not at all.  Once the document of a
    source has been fetched, parsed and its nodes selected, the source
    contributes one item per node when every node is normalizable, and
    nothing at all as soon as one node is not, whatever was processed
    before it. *)
Theorem feed_all_or_nothing
  (E : Env) (seen : list string) (u xmlData : string)
  (parsed : list (string * Data)) (items : list JsVal)
  (Hf : httpsRequest E u default_options = Ok xmlData)
  (Hp : XMLParser_parse E xmlData = Ok parsed)
  (Hs : select_items (Val (DObj parsed)) = Ok items) :
  (Forall normalizable items ->
   normalizedItems (now_ISO E (u :: seen)) items
   = Ok (contributed_after E seen u)
   /\ List.length (contributed_after E seen u) = List.length items)
  /\ (Exists (fun item => ~ normalizable item) items ->
      contributed_after E seen u = []).
Proof.
  unfold contributed_after, source_items_after.
  rewrite Hf. simpl. rewrite Hp. simpl. rewrite Hs. simpl. split.
  - intros F.
    destruct (normalizedItems_from_total (now_ISO E (u :: seen)) items 0 F)
      as [out Ho].
    unfold normalizedItems. rewrite Ho. split; [reflexivity | ].
    exact (normalizedItems_from_length _ items 0 out Ho).
  - intros X. unfold normalizedItems.
    destruct (normalizedItems_from (now_ISO E (u :: seen)) 0 items)
      as [out | e | ] eqn:Ho; try reflexivity.
    elim (Exists_not_Forall _ _ X).
    exact (normalizedItems_from_all_normalizable _ items 0 out Ho).
Qed.

Lemma feed_all_or_nothing_witness :
  select_items (Val (DObj (atom_document
     (DArr [ atom_entry "C" "2024-01-02T00:00:00Z";
             DObj [("title", DStr "D");
                   ("summary", DObj [("#text", DStr "text");
                                     ("@_type", DStr "html")])] ]))))
  = Ok attributed_entries
  /\ contributed_after attributed_summary [] url_three = [].
Proof.
  split; [reflexivity | ].
  apply (feed_all_or_nothing attributed_summary [] url_three body_three _
           attributed_entries eq_refl eq_refl eq_refl).
  apply Exists_cons_tl, Exists_cons_hd.
  intros [c H]. discriminate H.
Defined.

(** X6: selecting the items never throws on the object that the
    parser returns, whatever is under [rss] and [feed] (a string, a
    number, an object without [channel], nothing). *)
Theorem select_items_total (props : list (string * Data)) :
  exists items, select_items (Val (DObj props)) = Ok items.
Proof.
  destruct (shapes_total props) as [i [e [Hi He]]].
  destruct (truthy i) eqn:Ti.
  - eexists. exact (select_items_rss _ i Hi Ti).
  - destruct (truthy e) eqn:Te.
    + eexists. exact (select_items_feed _ i e Hi Ti He Te).
    + eexists. exact (select_items_neither _ i e Hi Ti He Te).
Qed.

(** ** The snippet *)

Lemma substring_to_short (n : nat) (s : string) :
  (String.length s <= n)%nat -> substring_to n s = s.
Proof.
  unfold substring_to. revert s.
  induction n as [ | n IH]; intros [ | c r]; simpl; intros H;
    try reflexivity; try lia.
  rewrite IH by lia. reflexivity.
Qed.

Lemma substring_to_le (n : nat) (s : string) :
  (String.length (substring_to n s) <= String.length s)%nat.
Proof.
  unfold substring_to. revert s.
  induction n as [ | n IH]; intros [ | c r]; simpl; try lia.
  specialize (IH r). lia.
Qed.

Lemma tag_free_strip_tags (s : string) : tag_free s = true -> strip_tags s = s.
Proof.
  induction s as [ | c r IH]; simpl; [reflexivity | ].
  intros H. apply andb_true_iff in H. destruct H as [Hc Hr].
  destruct (is_lt c); simpl.
  - apply negb_true_iff in Hc. rewrite Hc, (IH Hr). reflexivity.
  - rewrite (IH Hr). reflexivity.
Qed.

Lemma strip_tags_le (s : string) :
  (String.length (strip_tags s) <= String.length s)%nat
  /\ (String.length (strip_inside s) <= String.length s)%nat.
Proof.
  induction s as [ | c r [IHt IHi]]; simpl.
  - split; lia.
  - split.
    + destruct (is_lt c && has_gt r); simpl; lia.
    + destruct (is_gt c); lia.
Qed.

(** X7: a content in which no ["<"] has a [">"] after it (plain text,
    also text with a lone ["<"] or [">"]) is left as it is by the
    stripping: the snippet is its first 120 characters, and the
    content itself when that has at most 120 characters. *)
Theorem snippet_of_plain_text
  (now : string) (item : JsVal) (n : NewsItem) (c : string)
  (Hn : normalize_item now item = Ok n)
  (Hc : content n = str c)
  (Hplain : tag_free c = true) :
  contentSnippet n = str (substring_to 120 c)
  /\ ((String.length c <= 120)%nat -> contentSnippet n = content n).
Proof.
  destruct (content_and_snippet now item n Hn) as [c' [Hc' Hs]].
  rewrite Hc in Hc'. injection Hc' as <-.
  rewrite (tag_free_strip_tags c Hplain) in Hs.
  split; [exact Hs | ].
  intros L. rewrite Hs, Hc, (substring_to_short 120 c L). reflexivity.
Qed.

Lemma snippet_of_plain_text_witness :
  let item := item_object [("description", DStr "1 < 2 and 3 > 2")] in
  let n := {| title := str "No title"; link := str "";
              pubDate := str "2025-06-01T12:00:00Z";
              content := str "1 < 2 and 3 > 2";
              contentSnippet := str "1  2"; creator := str "Unknown" |} in
  let plain := item_object [("description", DStr "2 > 1, a <b")] in
  let m := {| title := str "No title"; link := str "";
              pubDate := str "2025-06-01T12:00:00Z";
              content := str "2 > 1, a <b";
              contentSnippet := str "2 > 1, a <b"; creator := str "Unknown" |} in
  normalize_item "2025-06-01T12:00:00Z" item = Ok n
  /\ tag_free "1 < 2 and 3 > 2" = false
  /\ normalize_item "2025-06-01T12:00:00Z" plain = Ok m
  /\ contentSnippet m = str (substring_to 120 "2 > 1, a <b")
  /\ ((String.length "2 > 1, a <b" <= 120)%nat -> contentSnippet m = content m).
Proof.
  intros item n plain m.
  split; [reflexivity | ]. split; [reflexivity | ]. split; [reflexivity | ].
  apply (snippet_of_plain_text "2025-06-01T12:00:00Z" plain m "2 > 1, a <b");
    reflexivity.
Defined.

(** X8: the snippet is never longer than the content, and stripping
    it once more changes nothing. *)
Theorem snippet_shorter_and_stripped
  (now : string) (item : JsVal) (n : NewsItem)
  (Hn : normalize_item now item = Ok n) :
  exists c snippet,
    content n = str c /\ contentSnippet n = str snippet
    /\ (String.length snippet <= String.length c)%nat
    /\ strip_tags snippet = snippet.
Proof.
  destruct (content_and_snippet now item n Hn) as [c [Hc Hs]].
  exists c, (substring_to 120 (strip_tags c)).
  repeat split; try assumption.
  - pose proof (substring_to_le 120 (strip_tags c)).
    pose proof (proj1 (strip_tags_le c)). lia.
  - apply tag_free_strip_tags, tag_free_substring_to, strip_tags_tag_free.
Qed.

Lemma snippet_shorter_and_stripped_witness :
  let item := item_object [("description", DStr "<p>Hello <b>world</b></p>")] in
  let n := {| title := str "No title"; link := str "";
              pubDate := str "2025-06-01T12:00:00Z";
              content := str "<p>Hello <b>world</b></p>";
              contentSnippet := str "Hello world"; creator := str "Unknown" |} in
  normalize_item "2025-06-01T12:00:00Z" item = Ok n
  /\ exists c snippet,
       content n = str c /\ contentSnippet n = str snippet
       /\ (String.length snippet <= String.length c)%nat
       /\ strip_tags snippet = snippet.
Proof.
  intros item n. split; [reflexivity | ].
  apply (snippet_shorter_and_stripped "2025-06-01T12:00:00Z" item n).
  reflexivity.
Defined.

(** ** The order of the aggregate *)

Lemma stable_sort_fixed {A : Type} (cmp : A -> A -> option Z) (l : list A) :
  Sorted (fun x y => placed_after cmp x y = false) l -> stable_sort cmp l = l.
Proof.
  induction 1 as [ | x l S IH H]; simpl; [reflexivity | ].
  rewrite IH. destruct H as [ | y l H]; simpl; [reflexivity | ].
  rewrite H. reflexivity.
Qed.




Lemma descending_all_valid (E : Env) (l : list NewsItem) :
  DescendingByDate E l -> (2 <= List.length l)%nat -> Forall (valid_date E) l.
Proof.
  unfold DescendingByDate. induction 1 as [ | a l S IH H]; intros L.
  - constructor.
  - destruct H as [ | b l H]; [simpl in L; lia | ].
    assert (Va : valid_date E a /\ valid_date E b).
    { unfold date_ge, ts_ge, valid_date in *.
      destruct (timestamp E a), (timestamp E b); try discriminate H.
      split; discriminate. }
    destruct Va as [Va Vb]. constructor; [exact Va | ].
    destruct l as [ | c l].
    + constructor; [exact Vb | constructor].
    + apply IH. simpl. lia.
Qed.

(** X10: when no source hangs and the collection is already in
    descending order of the time values, it is returned as it is. *)
Theorem descending_collection_unchanged (E : Env) (rssFeeds : list string)
  (Hsettle : Forall (fun u => ~ hangs E u) rssFeeds)
  (H : DescendingByDate E (collected E rssFeeds)) :
  fetchRSSFeeds E rssFeeds = Ok (collected E rssFeeds).
Proof.
  destruct (Nat.leb_spec (List.length (collected E rssFeeds)) 1) as [L | L].
  - rewrite (fetchRSSFeeds_eq E rssFeeds Hsettle). apply Array_sort_short, L.
  - pose proof (descending_all_valid E _ H L) as V.
    rewrite (fetch_valid_stable_sort E rssFeeds Hsettle V). f_equal.
    apply stable_sort_fixed. unfold DescendingByDate in H.
    eapply Sorted_ind with (R := date_ge E)
      (P := fun l => Sorted (fun x y => placed_after (compare_times E) x y = false) l);
      [constructor | | exact H].
    intros a l _ IH Ha. constructor; [exact IH | ].
    destruct Ha as [ | b l' Hab]; constructor.
    unfold date_ge, ts_ge in Hab.
    unfold placed_after, compare_times, Date_minus.
    destruct (timestamp E a) as [ta | ]; [ | discriminate Hab].
    destruct (timestamp E b) as [tb | ]; [ | discriminate Hab].
    apply Z.leb_le in Hab. apply Z.ltb_ge. lia.
Qed.

Lemma descending_collection_unchanged_witness :
  fetchRSSFeeds newest_first [url_one]
  = Ok (collected newest_first [url_one]).
Proof.
  apply (descending_collection_unchanged newest_first [url_one]).
  - repeat constructor; intros N; discriminate N.
  - repeat constructor.
Defined.

(** ** [main] and the two services *)

(** The run of [main], case by case. *)
Lemma main_cases (E : Env) (rssFeeds : list string) (out : list NewsItem) :
  fetchRSSFeeds E rssFeeds = Ok out ->
  match out with
  | [] => main E rssFeeds = {| exit := Returned; calls := [] |}
  | _ :: _ =>
      match processWithAI E (firstn 20 out) with
      | Throw _ =>
          main E rssFeeds
          = {| exit := ProcessExit 1;
               calls := [Call_processWithAI (firstn 20 out)] |}
      | Never =>
          main E rssFeeds
          = {| exit := Unfinished;
               calls := [Call_processWithAI (firstn 20 out)] |}
      | Ok msg =>
          main E rssFeeds
          = {| exit := match sendToTelegram E msg with
                       | Ok _ => Returned
                       | Throw _ => ProcessExit 1
                       | Never => Unfinished
                       end;
               calls := [Call_processWithAI (firstn 20 out);
                         Call_sendToTelegram msg] |}
      end
  end.
Proof.
  intros F. unfold main, main_body. rewrite F.
  destruct out as [ | n rest]; [reflexivity | ].
  unfold tbind, lift, invoke, ret. cbv beta iota.
  replace (Z.eqb (Z.of_nat (List.length (n :: rest))) 0) with false
    by (symmetry; apply Z.eqb_neq; simpl List.length; lia).
  generalize (firstn 20 (n :: rest)). intros top.
  destruct (processWithAI E top) as [msg | err | ]; try reflexivity.
  destruct (sendToTelegram E msg); reflexivity.
Qed.

Lemma main_no_aggregate (E : Env) (rssFeeds : list string) :
  (forall out, fetchRSSFeeds E rssFeeds <> Ok out) ->
  calls (main E rssFeeds) = []
  /\ (exit (main E rssFeeds) = ProcessExit 1 <-> throws (fetchRSSFeeds E rssFeeds)).
Proof.
  intros N. unfold main, main_body.
  destruct (fetchRSSFeeds E rssFeeds) as [out | e | ]; simpl.
  - elim (N out). reflexivity.
  - split; [reflexivity | ]. split; [intros _; exists e | ]; reflexivity.
  - split; [reflexivity | ]. split; [discriminate | intros [e H]; discriminate H].
Qed.

Lemma date_built_or_not (E : Env) (l : list NewsItem) :
  Forall (date_built E) l \/ ~ Forall (date_built E) l.
Proof.
  induction l as [ | n l [IH | IH]].
  - left; constructor.
  - unfold date_built at 1.
    destruct (Date_new E (pubDate n)) as [t | e | ] eqn:D.
    + left. constructor; [exists t; exact D | exact IH].
    + right. intros F. apply Forall_cons_iff in F. destruct F as [[t H] _].
      unfold date_built in H. rewrite D in H. discriminate H.
    + right. intros F. apply Forall_cons_iff in F. destruct F as [[t H] _].
      rewrite D in H. discriminate H.
  - right. intros F. apply Forall_cons_iff in F. destruct F as [_ F]. exact (IH F).
Qed.

(** X12: [main] ends with exit code 1 exactly when [fetchRSSFeeds]
    throws, or there is at least one item and either [processWithAI]
    throws on the first 20 items or [sendToTelegram] throws on what
    [processWithAI] returned.  [fetchRSSFeeds] throws only when the
    date of a collected item cannot be built: the failure of a source
    is caught and never gives exit code 1. *)
Theorem main_exit_code_iff (E : Env) (rssFeeds : list string) :
  (exit (main E rssFeeds) = ProcessExit 1 <->
   throws (fetchRSSFeeds E rssFeeds)
   \/ exists n rest,
        fetchRSSFeeds E rssFeeds = Ok (n :: rest)
        /\ (throws (processWithAI E (firstn 20 (n :: rest)))
            \/ exists msg, processWithAI E (firstn 20 (n :: rest)) = Ok msg
                           /\ throws (sendToTelegram E msg)))
  /\ (throws (fetchRSSFeeds E rssFeeds) ->
      ~ Forall (date_built E) (collected E rssFeeds)).
Proof.
  split.
  - destruct (fetchRSSFeeds E rssFeeds) as [out | e | ] eqn:F.
    + pose proof (main_cases E rssFeeds out F) as M.
      destruct out as [ | n rest].
      * rewrite M. cbn [exit]. split; [discriminate | ].
        intros [[e H] | [n [rest [H _]]]]; discriminate H.
      * destruct (processWithAI E (firstn 20 (n :: rest))) as [msg | err | ] eqn:P;
          rewrite M; cbn [exit].
        -- destruct (sendToTelegram E msg) as [r | err | ] eqn:T.
           ++ split; [discriminate | ].
              intros [[e H] | [n' [rest' [H [[e He] | [m [Hm [e He]]]]]]]];
                try discriminate H; injection H as <- <-.
              ** rewrite P in He. discriminate He.
              ** rewrite P in Hm. injection Hm as <-. rewrite T in He.
                 discriminate He.
           ++ split; [ | reflexivity]. intros _. right. exists n, rest.
              split; [reflexivity | ]. right. exists msg. rewrite P.
              split; [reflexivity | exists err; exact T].
           ++ split; [discriminate | ].
              intros [[e H] | [n' [rest' [H [[e He] | [m [Hm [e He]]]]]]]];
                try discriminate H; injection H as <- <-.
              ** rewrite P in He. discriminate He.
              ** rewrite P in Hm. injection Hm as <-. rewrite T in He.
                 discriminate He.
        -- split; [ | reflexivity]. intros _. right. exists n, rest.
           split; [reflexivity | ]. left. rewrite P. exists err; reflexivity.
        -- split; [discriminate | ].
           intros [[e H] | [n' [rest' [H [[e He] | [m [Hm _]]]]]]];
             try discriminate H; injection H as <- <-.
           ++ rewrite P in He. discriminate He.
           ++ rewrite P in Hm. discriminate Hm.
    + destruct (main_no_aggregate E rssFeeds) as [_ M].
      { intros out. rewrite F. discriminate. }
      rewrite F in M. split.
      * intros H. left. apply M, H.
      * intros _. apply M. exists e; reflexivity.
    + destruct (main_no_aggregate E rssFeeds) as [_ M].
      { intros out. rewrite F. discriminate. }
      rewrite F in M. split.
      * intros H. left. apply M, H.
      * intros [[e H] | [n [rest [H _]]]]; discriminate H.
  - intros [e H] B.
    assert (D : Forall (fun u => ~ hangs E u) rssFeeds \/ Exists (hangs E) rssFeeds).
    { clear H B. induction rssFeeds as [ | u rest [IH | IH]].
      - left; constructor.
      - destruct (hangs_or_not E u) as [Hu | Hu].
        + right. apply Exists_cons_hd, Hu.
        + left. constructor; assumption.
      - right. apply Exists_cons_tl, IH. }
    destruct D as [D | D].
    + rewrite (fetchRSSFeeds_eq E rssFeeds D) in H.
      rewrite Forall_forall in B.
      destruct (Array_sort_returns (sort_order E) (compareFn E) (collected E rssFeeds))
        as [out Hout].
      { intros a b Ha Hb. rewrite (compareFn_built E a b (B a Ha) (B b Hb)).
        eexists; reflexivity. }
      rewrite Hout in H. discriminate H.
    + unfold fetchRSSFeeds in H. rewrite (for_feeds_hangs E rssFeeds [] [] D) in H.
      discriminate H.
Qed.

(** X13: [main] calls each service at most once and in this order:
    [processWithAI] with the first items of the aggregate, at least one
    and at most 20 of them, and [sendToTelegram] only after
    [processWithAI] has returned, with the value that it returned.
    When [fetchRSSFeeds] does not return an item, no call is made. *)
Theorem main_calls_in_order (E : Env) (rssFeeds : list string) :
  (calls (main E rssFeeds) = []
   /\ forall n rest, fetchRSSFeeds E rssFeeds <> Ok (n :: rest))
  \/ exists out,
       fetchRSSFeeds E rssFeeds = Ok out
       /\ out <> []
       /\ (List.length (firstn 20 out) <= 20)%nat
       /\ (exists later, out = (firstn 20 out ++ later)%list)
       /\ ((calls (main E rssFeeds) = [Call_processWithAI (firstn 20 out)]
            /\ forall msg, processWithAI E (firstn 20 out) <> Ok msg)
           \/ (exists msg,
                  processWithAI E (firstn 20 out) = Ok msg
                  /\ calls (main E rssFeeds)
                     = [Call_processWithAI (firstn 20 out);
                        Call_sendToTelegram msg])).
Proof.
  destruct (fetchRSSFeeds E rssFeeds) as [out | e | ] eqn:F.
  - pose proof (main_cases E rssFeeds out F) as M.
    destruct out as [ | n rest].
    + left. rewrite M. split; [reflexivity | discriminate].
    + right. exists (n :: rest). split; [reflexivity | ].
      split; [discriminate | ].
      split; [apply firstn_le_length | ].
      split; [exists (skipn 20 (n :: rest)); symmetry; apply firstn_skipn | ].
      destruct (processWithAI E (firstn 20 (n :: rest))) as [msg | err | ] eqn:P;
        rewrite M.
      * right. exists msg. split; reflexivity.
      * left. split; [reflexivity | discriminate].
      * left. split; [reflexivity | discriminate].
  - left. split; [ | discriminate].
    apply main_no_aggregate. intros out. rewrite F. discriminate.
  - left. split; [ | discriminate].
    apply main_no_aggregate. intros out. rewrite F. discriminate.
Qed.

Lemma try_catch_rethrow {A : Type} (c : Result A) :
  try_catch c (fun error => Throw error) = c.
Proof. destruct c; reflexivity. Qed.

Lemma processWithAI_eq (E : Env) (newsData : list NewsItem) :
  processWithAI E newsData
  = (response <- httpsRequest E completions_url
                   (completion_options E newsData) ;;
     data <- JSON_parse E response ;;
     choices <- get (Val data) "choices" ;;
     first <- get choices "0" ;;
     message <- get first "message" ;;
     get message "content").
Proof. unfold processWithAI. apply try_catch_rethrow. Qed.

(** X14: when the completion service answers with an object that has
    no [choices] or an empty array of them, [processWithAI] throws a
    [TypeError], and [main] ends with exit code 1 without calling
    [sendToTelegram]. *)
Theorem no_choices_nothing_sent
  (E : Env) (rssFeeds : list string) (n : NewsItem) (rest : list NewsItem)
  (response : string) (props : list (string * Data))
  (Hf : fetchRSSFeeds E rssFeeds = Ok (n :: rest))
  (Hr : httpsRequest E completions_url
          (completion_options E (firstn 20 (n :: rest))) = Ok response)
  (Hj : JSON_parse E response = Ok (DObj props))
  (Hc : prop "choices" props = Undefined
        \/ prop "choices" props = Val (DArr [])) :
  (exists what,
      processWithAI E (firstn 20 (n :: rest)) = Throw (TypeError what))
  /\ main E rssFeeds
     = {| exit := ProcessExit 1;
          calls := [Call_processWithAI (firstn 20 (n :: rest))] |}.
Proof.
  assert (P : exists what,
             processWithAI E (firstn 20 (n :: rest)) = Throw (TypeError what)).
  { rewrite processWithAI_eq, Hr. cbn [bind]. rewrite Hj. cbn [bind].
    rewrite get_object. cbn [bind].
    destruct Hc as [-> | ->]; simpl; eexists; reflexivity. }
  split; [exact P | ].
  pose proof (main_cases E rssFeeds _ Hf) as M. cbv beta iota in M.
  destruct P as [what P]. rewrite P in M. exact M.
Qed.

Lemma no_choices_nothing_sent_witness :
  let E := completion_answers (DObj [("error", DStr "quota")]) in
  let y := plain_news "Y" "2024-01-01T00:00:00Z" in
  fetchRSSFeeds E [url_two] = Ok [y]
  /\ (exists what, processWithAI E (firstn 20 [y]) = Throw (TypeError what))
  /\ main E [url_two]
     = {| exit := ProcessExit 1;
          calls := [Call_processWithAI (firstn 20 [y])] |}.
Proof.
  intros E y. split; [reflexivity | ].
  apply (no_choices_nothing_sent E [url_two] y [] "(completion response)"
           [("error", DStr "quota")]).
  - reflexivity.
  - reflexivity.
  - reflexivity.
  - left; reflexivity.
Defined.

(** X15: when the first choice has a message object, [processWithAI]
    returns the [content] of that message as it is, [undefined] when
    the message has none, and [main] sends exactly that value. *)
Theorem message_content_is_sent
  (E : Env) (rssFeeds : list string) (n : NewsItem) (rest : list NewsItem)
  (response : string) (props first message : list (string * Data))
  (more : list Data)
  (Hf : fetchRSSFeeds E rssFeeds = Ok (n :: rest))
  (Hr : httpsRequest E completions_url
          (completion_options E (firstn 20 (n :: rest))) = Ok response)
  (Hj : JSON_parse E response = Ok (DObj props))
  (Hc : prop "choices" props = Val (DArr (DObj first :: more)))
  (Hm : prop "message" first = Val (DObj message)) :
  processWithAI E (firstn 20 (n :: rest)) = Ok (prop "content" message)
  /\ calls (main E rssFeeds)
     = [Call_processWithAI (firstn 20 (n :: rest));
        Call_sendToTelegram (prop "content" message)].
Proof.
  assert (P : processWithAI E (firstn 20 (n :: rest))
              = Ok (prop "content" message)).
  { rewrite processWithAI_eq, Hr. cbn [bind]. rewrite Hj. cbn [bind].
    rewrite get_object, Hc. cbn [bind].
    change (get (Val (DArr (DObj first :: more))) "0") with (Ok (Val (DObj first))).
    cbn [bind]. rewrite get_object, Hm. reflexivity. }
  split; [exact P | ].
  pose proof (main_cases E rssFeeds _ Hf) as M. cbv beta iota in M.
  rewrite P in M.
  destruct (sendToTelegram E (prop "content" message)); rewrite M; reflexivity.
Qed.

Lemma message_content_is_sent_witness :
  let E := completion_answers
             (DObj [("choices",
                     DArr [DObj [("message",
                                  DObj [("role", DStr "assistant")])]])]) in
  let y := plain_news "Y" "2024-01-01T00:00:00Z" in
  fetchRSSFeeds E [url_two] = Ok [y]
  /\ processWithAI E (firstn 20 [y]) = Ok Undefined
  /\ calls (main E [url_two])
     = [Call_processWithAI (firstn 20 [y]); Call_sendToTelegram Undefined].
Proof.
  intros E y. split; [reflexivity | ].
  apply (message_content_is_sent E [url_two] y [] "(completion response)"
           [("choices", DArr [DObj [("message",
                                     DObj [("role", DStr "assistant")])]])]
           [("message", DObj [("role", DStr "assistant")])]
           [("role", DStr "assistant")] []);
    reflexivity.
Defined.

(** X16: [sendToTelegram] returns exactly when the request ended with
    a status code from 200 to 299 and the body is valid JSON, and then
    returns the parsed body whatever it says; in every other case it
    throws the error of [httpsRequest] or of [JSON.parse] unchanged. *)
Theorem sendToTelegram_returns_iff (E : Env) (message : JsVal) :
  (forall v,
      sendToTelegram E message = Ok v <->
      exists response d,
        httpsRequest E (sendMessage_url E) (sendMessage_options E message)
        = Ok response
        /\ JSON_parse E response = Ok d /\ v = Val d)
  /\ (forall e,
         httpsRequest E (sendMessage_url E) (sendMessage_options E message)
         = Throw e ->
         sendToTelegram E message = Throw e)
  /\ (forall response e,
         httpsRequest E (sendMessage_url E) (sendMessage_options E message)
         = Ok response ->
         JSON_parse E response = Throw e ->
         sendToTelegram E message = Throw e).
Proof.
  unfold sendToTelegram. rewrite try_catch_rethrow.
  change ("https://api.telegram.org/bot" ++ telegramBot E ++ "/sendMessage")
    with (sendMessage_url E).
  change {| method := "POST";
            headers := [ ("Content-Type", "application/json");
                         ("Content-Length",
                          string_of_Z (byteLength E (sendMessage_request E message))) ];
            body := Some (sendMessage_request E message) |}
    with (sendMessage_options E message).
  destruct (httpsRequest E (sendMessage_url E) (sendMessage_options E message))
    as [response | err | ]; simpl.
  - destruct (JSON_parse E response) as [d | err | ] eqn:J; simpl.
    + repeat split; try discriminate.
      * intros H. injection H as <-. exists response, d. repeat split. exact J.
      * intros [r [d' [Hr [Hd ->]]]]. injection Hr as <-.
        rewrite J in Hd. injection Hd as <-. reflexivity.
      * intros r e Hr Hd. injection Hr as <-. rewrite J in Hd. discriminate Hd.
    + repeat split; try discriminate.
      * intros [r [d' [Hr [Hd _]]]]. injection Hr as <-.
        rewrite J in Hd. discriminate Hd.
      * intros r e Hr Hd. injection Hr as <-. rewrite J in Hd.
        injection Hd as <-. reflexivity.
    + repeat split; try discriminate.
      * intros [r [d' [Hr [Hd _]]]]. injection Hr as <-.
        rewrite J in Hd. discriminate Hd.
      * intros r e Hr Hd. injection Hr as <-. rewrite J in Hd. discriminate Hd.
  - repeat split; try discriminate.
    + intros [r [d [Hr _]]]. discriminate Hr.
    + intros e H. injection H as <-. reflexivity.
  - repeat split; try discriminate.
    + intros [r [d [Hr _]]]. discriminate Hr.
Qed.
